(** * The account coordinator of the desktop client (gui/src/main/account.ts)

    A shallow embedding of the [Account] class: its fields are a record, its
    methods are computations in a small state/exception/trace monad, and the
    collaborators whose code lives in other files (the account data cache,
    the notification providers, gettext) are parameters. *)

From Stdlib Require Import ZArith String List Bool Lia.
Import ListNotations.
Local Open Scope string_scope.
Local Open Scope list_scope.
Local Open Scope Z_scope.

(** ** JavaScript values used by the class *)

Module Js.

(** A JS number that holds a time value or a difference of time values:
    an integer number of milliseconds, or NaN (the time value of an
    Invalid Date). *)
Inductive number : Type :=
| Num (z : Z)
| NaN.

(** [a - b] *)
Definition sub (a b : number) : number :=
  match a, b with
  | Num x, Num y => Num (x - y)
  | _, _ => NaN
  end.

(** [Math.min(a, b)]: NaN as soon as one argument is NaN. *)
Definition Math_min (a b : number) : number :=
  match a, b with
  | Num x, Num y => Num (Z.min x y)
  | _, _ => NaN
  end.

(** [a >= b]: false as soon as one side is NaN. *)
Definition ge (a b : number) : bool :=
  match a, b with
  | Num x, Num y => y <=? x
  | _, _ => false
  end.

(** Truthiness of a string: every string but the empty one. *)
Definition truthy (s : string) : bool :=
  match s with
  | EmptyString => false
  | String _ _ => true
  end.

(** The value of an [Error]: whether it is an [instanceof
    InvalidAccountError], and its [message]. *)
Record Error : Type := mkError {
  instanceofInvalidAccountError : bool;
  message : string
}.

(** [Error(msg)]: a plain error. *)
Definition Error_ (msg : string) : Error := mkError false msg.

(** How a promise settles. *)
Inductive Settled (A : Type) : Type :=
| Resolved (a : A)
| Rejected (e : Error).
Arguments Resolved {A} a.
Arguments Rejected {A} e.

End Js.

(** ** Data of daemon-rpc-types the class touches *)

Definition AccountToken := string.

(** [IAccountData.expiry] is a date string in the source, only ever read
    through [new Date(expiry)]; it is represented by the time value of that
    date, [Js.NaN] when the string is not a date. *)
Record IAccountData : Type := mkAccountData {
  expiry : Js.number
}.

Record IAccountAndDevice : Type := mkAccountAndDevice {
  accountToken : AccountToken;
  device : string
}.

(** [DeviceState], a union tagged by [type]. *)
Inductive DeviceState : Type :=
| LoggedIn (accountAndDevice : IAccountAndDevice)
| LoggedOut
| Revoked.

(** [deviceState.type] *)
Definition DeviceState_type (s : DeviceState) : string :=
  match s with
  | LoggedIn _ => "logged in"
  | LoggedOut => "logged out"
  | Revoked => "revoked"
  end.

(** [DeviceEvent]: its own [type] tag (why the daemon sent it) and the
    device state it carries. *)
Record DeviceEvent : Type := mkDeviceEvent {
  eventType : string;
  deviceState : DeviceState
}.

(** [TunnelState]: only its [state] tag is read here. *)
Record TunnelState : Type := mkTunnelState {
  state : string
}.

(** What [daemonRpc.submitVoucher] resolves with; the class only passes it
    on. *)
Record VoucherResponse : Type := mkVoucherResponse {
  voucherType : string;
  newExpiry : option Js.number
}.

(** The payload [getSystemNotification()] returns, named by the provider
    that built it and the context that provider was constructed from. *)
Inductive SystemNotification : Type :=
| AccountExpiredNotification (accountExpiry : Js.number) (tunnelState : TunnelState)
| CloseToAccountExpiryNotification (accountExpiry : Js.number) (locale : string).

(** ** The expiry notification scheduler *)

(** The one callback ever handed to the scheduler:
    [() => this.handleAccountExpiry()]. *)
Inductive Callback : Type :=
| CallHandleAccountExpiry.

(** Modelled from the spec: the [Scheduler] class of shared/scheduler.ts,
    whose code is in another file. It holds at most one pending deferred
    callback; scheduling replaces any prior pending callback; cancellation is
    idempotent and safe when nothing is armed; [isRunning] tells whether a
    callback is pending. *)
Record Scheduler : Type := mkScheduler {
  pending : option (Callback * Js.number)
}.

Definition Scheduler_new : Scheduler := mkScheduler None.

Definition Scheduler_schedule (action : Callback) (delay : Js.number)
    (s : Scheduler) : Scheduler :=
  mkScheduler (Some (action, delay)).

Definition Scheduler_cancel (s : Scheduler) : Scheduler := mkScheduler None.

Definition Scheduler_isRunning (s : Scheduler) : bool :=
  match pending s with
  | Some _ => true
  | None => false
  end.

(** ** Observable effects *)

Inductive LogLevel : Type := LogInfo | LogWarn | LogError.

Inductive DaemonRpcCall : Type :=
| RpcGetAccountData (accountToken : AccountToken)
| RpcCreateNewAccount
| RpcLoginAccount (accountToken : AccountToken)
| RpcLogoutAccount
| RpcSubmitVoucher (voucherCode : string)
| RpcGetAccountHistory.

(** Every call the class makes on a collaborator, in the order made. *)
Inductive Effect : Type :=
| CacheFetch (accountToken : AccountToken)
| CacheInvalidate
| CacheHandleVoucherResponse (accountToken : AccountToken) (response : VoucherResponse)
| SchedulerCancel
| SchedulerSchedule (action : Callback) (delay : Js.number)
| DelegateNotify (notification : SystemNotification)
| DelegatePerformPostUpgradeCheck
| DelegateSetTrayContextMenu
| DaemonRpc (call : DaemonRpcCall)
| Log (level : LogLevel) (msg : string)
| IpcAccountNotify (accountData : option IAccountData)
| IpcAccountNotifyDevice (deviceEvent : DeviceEvent)
| IpcAccountHistoryNotify (accountHistory : option AccountToken).

Definition is_cache_call (e : Effect) : bool :=
  match e with
  | CacheFetch _ | CacheInvalidate | CacheHandleVoucherResponse _ _ => true
  | _ => false
  end.

Definition is_cache_fetch (e : Effect) : bool :=
  match e with
  | CacheFetch _ => true
  | _ => false
  end.

Definition is_notify (e : Effect) : bool :=
  match e with
  | DelegateNotify _ => true
  | _ => false
  end.

Definition is_schedule (e : Effect) : bool :=
  match e with
  | SchedulerSchedule _ _ => true
  | _ => false
  end.

Definition is_history_refresh (e : Effect) : bool :=
  match e with
  | DaemonRpc RpcGetAccountHistory => true
  | _ => false
  end.

(** ** What a handler reads from its surroundings while it runs *)

(** Which of the optional IPC notifiers ([notify?.(...)]) are installed. *)
Record IpcMainEventChannel : Type := mkIpc {
  account_notify : bool;
  account_notifyDevice : bool;
  accountHistory_notify : bool
}.

Record Env : Type := mkEnv {
  getTunnelState : TunnelState;          (* delegate.getTunnelState() *)
  getLocale : string;                    (* delegate.getLocale() *)
  isPerformingPostUpgradeCheck : bool;   (* delegate.isPerformingPostUpgradeCheck() *)
  Date_now : Z;                          (* Date.now(), new Date() *)
  daemonRpc_isConnected : bool;          (* daemonRpc.isConnected *)
  ipc : IpcMainEventChannel
}.

(** ** Collaborators whose code is in other files *)

(** The two functions the cache is constructed with (lines 36-45), as the
    cache may call them. *)
Inductive CacheCallback : Type :=
| FetchHandler (accountToken : AccountToken)
| UpdateHandler (accountData : option IAccountData).

(** The account data cache is any state machine whose three methods may
    call the two handlers it was constructed with, any number of times and
    in any order, before they return.  The providers answer [mayDisplay()]
    from the context they were constructed with and the clock. *)
Record Collaborators : Type := mkCollaborators {
  CacheState : Type;
  cache_fetch :
    AccountToken -> CacheState -> CacheState * list CacheCallback;
  cache_invalidate :
    CacheState -> CacheState * list CacheCallback;
  cache_handleVoucherResponse :
    AccountToken -> VoucherResponse -> CacheState ->
    CacheState * list CacheCallback;
  AccountExpired_mayDisplay : Js.number -> TunnelState -> Z -> bool;
  CloseToAccountExpiry_mayDisplay : Js.number -> string -> Z -> bool;
  gettext : string -> string
}.

Section Coordinator.

Context (C : Collaborators).

(** ** The fields of [Account] *)

Record Account : Type := mkAccount {
  accountDataValue : option IAccountData;
  accountHistoryValue : option AccountToken;
  accountExpiryNotificationScheduler : Scheduler;
  accountDataCache : CacheState C;
  deviceStateValue : option DeviceState
}.

Definition Account_new (cache : CacheState C) : Account :=
  mkAccount None None Scheduler_new cache None.

(** ** The monad: state, thrown errors, and the trace of effects *)

Inductive Completion (A : Type) : Type :=
| Normal (a : A)
| Throw (e : Js.Error).
Arguments Normal {A} a.
Arguments Throw {A} e.

Record Run (A : Type) : Type := mkRun {
  completion : Completion A;
  final : Account;
  effects : list Effect
}.
Arguments mkRun {A}.
Arguments completion {A}.
Arguments final {A}.
Arguments effects {A}.

Definition M (A : Type) : Type := Account -> Run A.

Definition ret {A} (a : A) : M A := fun w => mkRun (Normal a) w [].

Definition bind {A B} (m : M A) (k : A -> M B) : M B :=
  fun w =>
    let r := m w in
    match completion r with
    | Normal a =>
        let r' := k a (final r) in
        mkRun (completion r') (final r') (effects r ++ effects r')
    | Throw e => mkRun (Throw e) (final r) (effects r)
    end.

Definition throw {A} (e : Js.Error) : M A := fun w => mkRun (Throw e) w [].

Definition try_catch {A} (m : M A) (handler : Js.Error -> M A) : M A :=
  fun w =>
    let r := m w in
    match completion r with
    | Normal _ => r
    | Throw e =>
        let r' := handler e (final r) in
        mkRun (completion r') (final r') (effects r ++ effects r')
    end.

Definition emit (e : Effect) : M unit := fun w => mkRun (Normal tt) w [e].

Definition get : M Account := fun w => mkRun (Normal w) w [].

Definition modify (f : Account -> Account) : M unit :=
  fun w => mkRun (Normal tt) (f w) [].

(** [await p], once [p] has settled. *)
Definition await {A} (p : Js.Settled A) : M A :=
  match p with
  | Js.Resolved a => ret a
  | Js.Rejected e => throw e
  end.

(** An async method: what it does up to its [await], and what it does once
    the awaited promise has settled, on the state and in the environment of
    that later moment. *)
Definition Continuation (A B : Type) : Type := Js.Settled A -> Env -> M B.
Definition Async (A B : Type) : Type := M (Continuation A B).

Notation "x <- m ;; k" := (bind m (fun x => k))
  (at level 100, m at next level, right associativity, only parsing).
Notation "m ;; k" := (bind m (fun _ => k))
  (at level 100, right associativity, only parsing).

(** [if (c) { m }] *)
Definition when (c : bool) (m : M unit) : M unit :=
  if c then m else ret tt.

Definition log_ (level : LogLevel) (msg : string) : M unit :=
  emit (Log level msg).

(** ** Getters (lines 52-62, 103-105, 227-231) *)

Definition accountData (w : Account) : option IAccountData :=
  accountDataValue w.

Definition accountHistory (w : Account) : option AccountToken :=
  accountHistoryValue w.

Definition deviceState_ (w : Account) : option DeviceState :=
  deviceStateValue w.

(** [this.deviceState?.type === 'logged in'] *)
Definition isLoggedIn (w : Account) : bool :=
  match deviceState_ w with
  | Some s => String.eqb (DeviceState_type s) "logged in"
  | None => false
  end.

Definition getAccountToken (w : Account) : option AccountToken :=
  match deviceState_ w with
  | Some (LoggedIn accountAndDevice) => Some (accountToken accountAndDevice)
  | _ => None
  end.

(** ** Field writes *)

Definition set_accountDataValue (v : option IAccountData) (w : Account) : Account :=
  mkAccount v (accountHistoryValue w) (accountExpiryNotificationScheduler w)
    (accountDataCache w) (deviceStateValue w).

Definition set_accountHistoryValue (v : option AccountToken) (w : Account) : Account :=
  mkAccount (accountDataValue w) v (accountExpiryNotificationScheduler w)
    (accountDataCache w) (deviceStateValue w).

Definition set_scheduler (v : Scheduler) (w : Account) : Account :=
  mkAccount (accountDataValue w) (accountHistoryValue w) v
    (accountDataCache w) (deviceStateValue w).

Definition set_accountDataCache (v : CacheState C) (w : Account) : Account :=
  mkAccount (accountDataValue w) (accountHistoryValue w)
    (accountExpiryNotificationScheduler w) v (deviceStateValue w).

Definition set_deviceStateValue (v : option DeviceState) (w : Account) : Account :=
  mkAccount (accountDataValue w) (accountHistoryValue w)
    (accountExpiryNotificationScheduler w) (accountDataCache w) v.

(** ** Calls on the scheduler *)

Definition scheduler_cancel : M unit :=
  emit SchedulerCancel ;;
  modify (fun w => set_scheduler (Scheduler_cancel (accountExpiryNotificationScheduler w)) w).

Definition scheduler_schedule (action : Callback) (delay : Js.number) : M unit :=
  emit (SchedulerSchedule action delay) ;;
  modify (fun w =>
    set_scheduler (Scheduler_schedule action delay (accountExpiryNotificationScheduler w)) w).

(** ** The expiry notification policy (lines 190-216) *)

Definition twelveHours : Z := 12 * 60 * 60 * 1000.

Definition handleAccountExpiry (env : Env) : M unit :=
  w <- get ;;
  match accountData w with
  | Some data =>
      let expiredNotification_mayDisplay :=
        AccountExpired_mayDisplay C (expiry data) (getTunnelState env) (Date_now env) in
      let closeToExpiryNotification_mayDisplay :=
        CloseToAccountExpiry_mayDisplay C (expiry data) (getLocale env) (Date_now env) in
      if expiredNotification_mayDisplay then
        scheduler_cancel ;;
        emit (DelegateNotify
                (AccountExpiredNotification (expiry data) (getTunnelState env)))
      else if negb (Scheduler_isRunning (accountExpiryNotificationScheduler w))
              && closeToExpiryNotification_mayDisplay then
        emit (DelegateNotify
                (CloseToAccountExpiryNotification (expiry data) (getLocale env))) ;;
        let remainingMilliseconds := Js.sub (expiry data) (Js.Num (Date_now env)) in
        let delay := Js.Math_min (Js.Num twelveHours) remainingMilliseconds in
        scheduler_schedule CallHandleAccountExpiry delay
      else ret tt
  | None => ret tt
  end.

(** The timer of the scheduler fires: the scheduler is idle again and the
    pending callback runs. *)
Definition timerFires (env : Env) : M unit :=
  w <- get ;;
  match pending (accountExpiryNotificationScheduler w) with
  | Some (CallHandleAccountExpiry, _) =>
      modify (set_scheduler (mkScheduler None)) ;;
      handleAccountExpiry env
  | None => ret tt
  end.

(** ** The update handler given to the cache (lines 39-45) *)

Definition updateHandler (env : Env) (data : option IAccountData) : M unit :=
  modify (set_accountDataValue data) ;;
  w <- get ;;
  when (account_notify (ipc env)) (emit (IpcAccountNotify (accountData w))) ;;
  handleAccountExpiry env.

(** ** The fetch handler given to the cache (lines 36-38); the promise it
    returns is the cache's to await. *)

Definition fetchHandler (token : AccountToken) : M unit :=
  emit (DaemonRpc (RpcGetAccountData token)).

(** The handlers the cache calls during one of its methods, run in turn. *)
Fixpoint run_callbacks (env : Env) (callbacks : list CacheCallback) : M unit :=
  match callbacks with
  | [] => ret tt
  | FetchHandler token :: rest => fetchHandler token ;; run_callbacks env rest
  | UpdateHandler data :: rest => updateHandler env data ;; run_callbacks env rest
  end.

(** ** Calls on the cache *)

Definition cache_call (env : Env) (call : Effect)
    (method : CacheState C -> CacheState C * list CacheCallback) : M unit :=
  emit call ;;
  w <- get ;;
  let '(cache', callbacks) := method (accountDataCache w) in
  modify (set_accountDataCache cache') ;;
  run_callbacks env callbacks.

Definition accountDataCache_fetch (env : Env) (token : AccountToken) : M unit :=
  cache_call env (CacheFetch token) (cache_fetch C token).

Definition accountDataCache_invalidate (env : Env) : M unit :=
  cache_call env CacheInvalidate (cache_invalidate C).

Definition accountDataCache_handleVoucherResponse (env : Env)
    (token : AccountToken) (response : VoucherResponse) : M unit :=
  cache_call env (CacheHandleVoucherResponse token response)
    (cache_handleVoucherResponse C token response).

(** ** Public methods *)

(** lines 107-111 *)
Definition updateAccountData (env : Env) : M unit :=
  w <- get ;;
  if daemonRpc_isConnected env && isLoggedIn w then
    match getAccountToken w with
    | Some token => accountDataCache_fetch env token
    | None => ret tt   (* not reached: isLoggedIn gives a token *)
    end
  else ret tt.

(** line 114:
    [!this.accountData || new Date() >= new Date(this.accountData.expiry)] *)
Definition hasExpired (env : Env) (w : Account) : bool :=
  match accountData w with
  | None => true
  | Some data => Js.ge (Js.Num (Date_now env)) (expiry data)
  end.

(** lines 113-121 *)
Definition detectStaleAccountExpiry (env : Env) (tunnelState : TunnelState) : M unit :=
  w <- get ;;
  if String.eqb (state tunnelState) "connected" && hasExpired env w then
    log_ LogInfo "Detected the stale account expiry." ;;
    accountDataCache_invalidate env
  else ret tt.

(** lines 146-150 *)
Definition setAccountHistory (env : Env) (history : option AccountToken) : M unit :=
  modify (set_accountHistoryValue history) ;;
  when (accountHistory_notify (ipc env)) (emit (IpcAccountHistoryNotify history)).

(** lines 218-225 *)
Definition updateAccountHistory : Async (option AccountToken) unit :=
  emit (DaemonRpc RpcGetAccountHistory) ;;
  ret (fun settled env =>
    try_catch
      (history <- await settled ;; setAccountHistory env history)
      (fun error =>
         log_ LogError ("Failed to fetch the account history: " ++ Js.message error)%string)).

(** lines 123-144.  [void this.updateAccountHistory()] starts the refresh and
    drops its promise. *)
Definition handleDeviceEvent (env : Env) (deviceEvent : DeviceEvent) : M unit :=
  modify (set_deviceStateValue (Some (deviceState deviceEvent))) ;;
  when (isPerformingPostUpgradeCheck env) (emit DelegatePerformPostUpgradeCheck) ;;
  match deviceState deviceEvent with
  | LoggedIn accountAndDevice =>
      accountDataCache_fetch env (accountToken accountAndDevice)
  | LoggedOut | Revoked =>
      accountDataCache_invalidate env
  end ;;
  _ <- updateAccountHistory ;;
  emit DelegateSetTrayContextMenu ;;
  when (account_notifyDevice (ipc env)) (emit (IpcAccountNotifyDevice deviceEvent)).

(** The stored device state after each call, for a run of device events. *)
Fixpoint deviceStates_after (events : list (Env * DeviceEvent)) (w : Account)
    : list (option DeviceState) :=
  match events with
  | [] => []
  | (env, deviceEvent) :: rest =>
      let w' := final (handleDeviceEvent env deviceEvent w) in
      deviceStateValue w' :: deviceStates_after rest w'
  end.

(** ** Commands (lines 152-188) *)

Definition createNewAccount : Async string string :=
  emit (DaemonRpc RpcCreateNewAccount) ;;
  ret (fun settled _ =>
    try_catch
      (await settled)
      (fun error =>
         log_ LogError ("Failed to create account: " ++ Js.message error)%string ;;
         throw error)).

Definition login (token : AccountToken) : Async unit unit :=
  emit (DaemonRpc (RpcLoginAccount token)) ;;
  ret (fun settled _ =>
    try_catch
      (await settled)
      (fun error =>
         log_ LogError ("Failed to login: " ++ Js.message error)%string ;;
         if Js.instanceofInvalidAccountError error then
           throw (Js.Error_ (gettext C "Invalid account number"))
         else
           throw error)).

Definition logout : Async unit unit :=
  emit (DaemonRpc RpcLogoutAccount) ;;
  ret (fun settled _ =>
    try_catch
      (await settled ;;
       scheduler_cancel)
      (fun error =>
         log_ LogInfo ("Failed to logout: " ++ Js.message error)%string ;;
         throw error)).

(** lines 69-78: the submit-voucher handler.  The token is read before the
    await; the cache is told after it. *)
Definition handleSubmitVoucher (voucherCode : string)
    : Async VoucherResponse VoucherResponse :=
  w <- get ;;
  let currentAccountToken := getAccountToken w in
  emit (DaemonRpc (RpcSubmitVoucher voucherCode)) ;;
  ret (fun settled env =>
    response <- await settled ;;
    match currentAccountToken with
    | Some token =>
        when (Js.truthy token)
             (accountDataCache_handleVoucherResponse env token response)
    | None => ret tt
    end ;;
    ret response).

(** A whole call of an async method: the part before the await on [w], then
    the part after it once the promise has settled as [settled], on the
    state [between w'] that other tasks have made of [w'] meanwhile. *)
Definition run_async {A B} (method : Async A B)
    (between : Account -> Account) (settled : Js.Settled A) (env : Env)
    : M B :=
  fun w =>
    let r := method w in
    match completion r with
    | Normal k =>
        let r' := k settled env (between (final r)) in
        mkRun (completion r') (final r') (effects r ++ effects r')
    | Throw e => mkRun (Throw e) (final r) (effects r)
    end.

End Coordinator.

Arguments mkAccount {C}.
Arguments accountDataValue {C}.
Arguments accountHistoryValue {C}.
Arguments accountExpiryNotificationScheduler {C}.
Arguments accountDataCache {C}.
Arguments deviceStateValue {C}.
Arguments Normal {A} a.
Arguments Throw {A} e.
Arguments mkRun {C A}.
Arguments completion {C A}.
Arguments final {C A}.
Arguments effects {C A}.
Arguments ret {C A}.
Arguments bind {C A B}.
Arguments throw {C A}.
Arguments try_catch {C A}.
Arguments emit {C}.
Arguments get {C}.
Arguments modify {C}.
Arguments await {C A}.
Arguments when {C}.
Arguments log_ {C}.
Arguments accountData {C}.
Arguments accountHistory {C}.
Arguments deviceState_ {C}.
Arguments isLoggedIn {C}.
Arguments getAccountToken {C}.
Arguments set_accountDataValue {C}.
Arguments set_accountHistoryValue {C}.
Arguments set_scheduler {C}.
Arguments set_accountDataCache {C}.
Arguments set_deviceStateValue {C}.
Arguments scheduler_cancel {C}.
Arguments scheduler_schedule {C}.
Arguments run_async {C A B}.

(** ** Sample collaborators and states, for concrete runs *)

(** A cache that remembers the account it serves: [fetch] calls the fetch
    handler at once and answers later, [invalidate] hands [undefined] to the
    update handler, and a successful voucher response for the account served
    hands over the new expiry. *)
Definition sampleCollaborators : Collaborators := {|
  CacheState := option AccountToken;
  cache_fetch := fun token _ => (Some token, [FetchHandler token]);
  cache_invalidate := fun _ => (None, [UpdateHandler None]);
  cache_handleVoucherResponse := fun token response current =>
    match current, newExpiry response with
    | Some served, Some e =>
        if String.eqb served token
        then (current, [UpdateHandler (Some (mkAccountData e))])
        else (current, [])
    | _, _ => (current, [])
    end;
  AccountExpired_mayDisplay := fun accountExpiry tunnelState now =>
    Js.ge (Js.Num now) accountExpiry && String.eqb (state tunnelState) "error";
  CloseToAccountExpiry_mayDisplay := fun accountExpiry _ now =>
    negb (Js.ge (Js.Num now) accountExpiry)
    && Js.ge (Js.Num (now + 3 * 24 * 60 * 60 * 1000)) accountExpiry;
  gettext := fun s => s
|}.

Definition sampleEnv (tunnel : string) (now : Z) : Env :=
  mkEnv (mkTunnelState tunnel) "en" false now true (mkIpc true true true).

(** A state whose cache serves the account the device is logged in with. *)
Definition sampleAccount (data : option IAccountData) (timer : Scheduler)
    (device : option DeviceState) : Account sampleCollaborators :=
  let served : CacheState sampleCollaborators :=
    match device with
    | Some (LoggedIn accountAndDevice) => Some (accountToken accountAndDevice)
    | _ => None
    end in
  mkAccount data None timer served device.

Definition sampleDevice (token : AccountToken) : DeviceState :=
  LoggedIn (mkAccountAndDevice token "device-1").

Definition armed : Scheduler :=
  mkScheduler (Some (CallHandleAccountExpiry, Js.Num 1000)).

Definition minutes (n : Z) : Z := n * 60 * 1000.
Definition hours (n : Z) : Z := n * 60 * 60 * 1000.

(** ** Footprints of computations *)

Section Footprint.

Context {C : Collaborators}.

(** The computation leaves the stored device state alone. *)
Definition keeps_deviceState {A} (m : M C A) : Prop :=
  forall w, deviceStateValue (final (m w)) = deviceStateValue w.

(** Every effect of the computation passes [allowed]. *)
Definition emits_only (allowed : Effect -> bool) {A} (m : M C A) : Prop :=
  forall w, forallb allowed (effects (m w)) = true.

(** The computation completes normally. *)
Definition never_throws {A} (m : M C A) : Prop :=
  forall w, exists a, completion (m w) = Normal a.

End Footprint.

(** What the two handlers of the cache may do: the daemon call of the fetch
    handler, and the IPC notification and the policy's calls of the update
    handler. *)
Definition is_callback_effect (e : Effect) : bool :=
  match e with
  | DaemonRpc (RpcGetAccountData _)
  | SchedulerCancel | SchedulerSchedule _ _ | DelegateNotify _
  | IpcAccountNotify _ => true
  | _ => false
  end.

(** Anything but a call on the cache. *)
Definition not_cache_call (e : Effect) : bool := negb (is_cache_call e).

(** Anything but a cache fetch. *)
Definition not_cache_fetch (e : Effect) : bool := negb (is_cache_fetch e).

(** Anything but the start of an account-history refresh. *)
Definition not_history_refresh (e : Effect) : bool := negb (is_history_refresh e).

(** ** IPC listeners that call the daemon themselves (lines 81-94) *)

(** The daemon calls made by the listeners only. *)
Inductive ListenerRpcCall : Type :=
| RpcClearAccountHistory
| RpcUpdateDevice
| RpcGetDevice.

(** What a listener does: an effect of the class, or a daemon call of its
    own. *)
Inductive ListenerEffect : Type :=
| AccountEffect (e : Effect)
| ListenerRpc (call : ListenerRpcCall).

Section Listeners.

Context (C : Collaborators).

(** The monad of the listeners: the one of the class, with the wider
    trace. *)
Record ListenerRun (A : Type) : Type := mkListenerRun {
  listener_completion : Completion A;
  listener_final : Account C;
  listener_effects : list ListenerEffect
}.
Arguments mkListenerRun {A}.
Arguments listener_completion {A}.
Arguments listener_final {A}.
Arguments listener_effects {A}.

Definition L (A : Type) : Type := Account C -> ListenerRun A.

Definition listener_ret {A} (a : A) : L A :=
  fun w => mkListenerRun (Normal a) w [].

Definition listener_bind {A B} (m : L A) (k : A -> L B) : L B :=
  fun w =>
    let r := m w in
    match listener_completion r with
    | Normal a =>
        let r' := k a (listener_final r) in
        mkListenerRun (listener_completion r') (listener_final r')
          (listener_effects r ++ listener_effects r')
    | Throw e => mkListenerRun (Throw e) (listener_final r) (listener_effects r)
    end.

Definition listener_try_catch {A} (m : L A) (handler : Js.Error -> L A) : L A :=
  fun w =>
    let r := m w in
    match listener_completion r with
    | Normal _ => r
    | Throw e =>
        let r' := handler e (listener_final r) in
        mkListenerRun (listener_completion r') (listener_final r')
          (listener_effects r ++ listener_effects r')
    end.

Definition listener_rpc (call : ListenerRpcCall) : L unit :=
  fun w => mkListenerRun (Normal tt) w [ListenerRpc call].

Definition listener_await {A} (p : Js.Settled A) : L A :=
  fun w =>
    match p with
    | Js.Resolved a => mkListenerRun (Normal a) w []
    | Js.Rejected e => mkListenerRun (Throw e) w []
    end.

(** A method of the class, called from a listener. *)
Definition lift {A} (m : M C A) : L A :=
  fun w =>
    let r := m w in
    mkListenerRun (completion r) (final r) (map AccountEffect (effects r)).

Notation "x <~ m ;; k" := (listener_bind m (fun x => k))
  (at level 100, m at next level, right associativity, only parsing).

(** lines 81-84: the listener of [accountHistory.handleClear], up to its
    await and after it.  [void this.updateAccountHistory()] starts the
    refresh and drops its promise. *)
Definition handleClear : L (Js.Settled unit -> L unit) :=
  _ <~ listener_rpc RpcClearAccountHistory ;;
  listener_ret (fun cleared =>
    _ <~ listener_await cleared ;;
    _ <~ lift (updateAccountHistory C) ;;
    listener_ret tt).

(** lines 86-94: the listener of [account.handleGetDeviceState], with its
    two awaits; [D] is what [daemonRpc.getDevice()] resolves with. *)
Definition handleGetDeviceState {D : Type}
    : L (Js.Settled unit -> L (Js.Settled D -> L D)) :=
  _ <~ listener_rpc RpcUpdateDevice ;;
  listener_ret (fun updated =>
    _ <~ listener_try_catch
           (listener_await updated)
           (fun error =>
              lift (log_ LogWarn
                      ("Failed to update device info: " ++ Js.message error)%string)) ;;
    _ <~ listener_rpc RpcGetDevice ;;
    listener_ret (fun device => listener_await device)).

(** A whole call of a listener with one await, as [run_async] for the
    methods. *)
Definition run_listener {A B} (listener : L (Js.Settled A -> L B))
    (between : Account C -> Account C) (settled : Js.Settled A) : L B :=
  fun w =>
    let r := listener w in
    match listener_completion r with
    | Normal k =>
        let r' := k settled (between (listener_final r)) in
        mkListenerRun (listener_completion r') (listener_final r')
          (listener_effects r ++ listener_effects r')
    | Throw e => mkListenerRun (Throw e) (listener_final r) (listener_effects r)
    end.

End Listeners.

Arguments mkListenerRun {C A}.
Arguments listener_completion {C A}.
Arguments listener_final {C A}.
Arguments listener_effects {C A}.
Arguments run_listener {C A B}.

(** ** Frames *)

(** The computation leaves [field] of the state as it was. *)
Definition keeps {C : Collaborators} {X : Type} (field : Account C -> X)
    {A : Type} (m : M C A) : Prop :=
  forall w, field (final (m w)) = field w.

(** The account data after the handlers the cache called: the last value it
    handed to the update handler, or the one stored before. *)
Fixpoint last_update (callbacks : list CacheCallback)
    (stored : option IAccountData) : option IAccountData :=
  match callbacks with
  | [] => stored
  | FetchHandler _ :: rest => last_update rest stored
  | UpdateHandler data :: rest => last_update rest data
  end.

(** The method of the cache a device event calls. *)
Definition device_event_method (C : Collaborators) (s : DeviceState)
    : CacheState C -> CacheState C * list CacheCallback :=
  match s with
  | LoggedIn accountAndDevice => cache_fetch C (accountToken accountAndDevice)
  | LoggedOut | Revoked => cache_invalidate C
  end.

(** What the policy may do. *)
Definition is_policy_effect (e : Effect) : bool :=
  match e with
  | SchedulerCancel | SchedulerSchedule _ _ | DelegateNotify _ => true
  | _ => false
  end.

(** A call on the scheduler. *)
Definition is_scheduler_call (e : Effect) : bool :=
  match e with
  | SchedulerCancel | SchedulerSchedule _ _ => true
  | _ => false
  end.

(** * Properties *)

Section Properties.

Context {C : Collaborators}.

(** ** How footprints compose *)

Lemma keeps_ret {A} (a : A) : keeps_deviceState (C:=C) (ret a).
Proof. intros w. reflexivity. Qed.

Lemma keeps_throw {A} (e : Js.Error) : keeps_deviceState (C:=C) (A:=A) (throw e).
Proof. intros w. reflexivity. Qed.

Lemma keeps_emit (e : Effect) : keeps_deviceState (C:=C) (emit e).
Proof. intros w. reflexivity. Qed.

Lemma keeps_get : keeps_deviceState (C:=C) get.
Proof. intros w. reflexivity. Qed.

Lemma keeps_modify (f : Account C -> Account C) :
  (forall w, deviceStateValue (f w) = deviceStateValue w) ->
  keeps_deviceState (modify f).
Proof. intros Hf w. apply Hf. Qed.

Lemma keeps_bind {A B} (m : M C A) (k : A -> M C B) :
  keeps_deviceState m -> (forall a, keeps_deviceState (k a)) ->
  keeps_deviceState (bind m k).
Proof.
  intros Hm Hk w. unfold bind. cbv zeta.
  destruct (completion (m w)) as [a | e]; cbn.
  - rewrite Hk. apply Hm.
  - apply Hm.
Qed.

Lemma keeps_try_catch {A} (m : M C A) (handler : Js.Error -> M C A) :
  keeps_deviceState m -> (forall e, keeps_deviceState (handler e)) ->
  keeps_deviceState (try_catch m handler).
Proof.
  intros Hm Hh w. unfold try_catch. cbv zeta.
  destruct (completion (m w)) as [a | e]; cbn.
  - apply Hm.
  - rewrite Hh. apply Hm.
Qed.

Lemma keeps_when (c : bool) (m : M C unit) :
  keeps_deviceState m -> keeps_deviceState (when c m).
Proof. intros Hm. destruct c; [exact Hm | apply keeps_ret]. Qed.

Lemma keeps_await {A} (p : Js.Settled A) : keeps_deviceState (C:=C) (await p).
Proof. destruct p; [apply keeps_ret | apply keeps_throw]. Qed.

Lemma only_ret allowed {A} (a : A) : emits_only (C:=C) allowed (ret a).
Proof. intros w. reflexivity. Qed.

Lemma only_throw allowed {A} (e : Js.Error) :
  emits_only (C:=C) (A:=A) allowed (throw e).
Proof. intros w. reflexivity. Qed.

Lemma only_get allowed : emits_only (C:=C) allowed get.
Proof. intros w. reflexivity. Qed.

Lemma only_modify allowed (f : Account C -> Account C) :
  emits_only allowed (modify f).
Proof. intros w. reflexivity. Qed.

Lemma only_emit (allowed : Effect -> bool) (e : Effect) :
  allowed e = true -> emits_only (C:=C) allowed (emit e).
Proof. intros He w. cbn. now rewrite He. Qed.

Lemma only_bind allowed {A B} (m : M C A) (k : A -> M C B) :
  emits_only allowed m -> (forall a, emits_only allowed (k a)) ->
  emits_only allowed (bind m k).
Proof.
  intros Hm Hk w. unfold bind. cbv zeta.
  destruct (completion (m w)) as [a | e]; cbn.
  - rewrite forallb_app, Hm, Hk. reflexivity.
  - apply Hm.
Qed.

Lemma only_when allowed (c : bool) (m : M C unit) :
  emits_only allowed m -> emits_only allowed (when c m).
Proof. intros Hm. destruct c; [exact Hm | apply only_ret]. Qed.

Lemma total_ret {A} (a : A) : never_throws (C:=C) (ret a).
Proof. intros w. now exists a. Qed.

Lemma total_emit (e : Effect) : never_throws (C:=C) (emit e).
Proof. intros w. now exists tt. Qed.

Lemma total_get : never_throws (C:=C) get.
Proof. intros w. now exists w. Qed.

Lemma total_modify (f : Account C -> Account C) : never_throws (modify f).
Proof. intros w. now exists tt. Qed.

Lemma total_bind {A B} (m : M C A) (k : A -> M C B) :
  never_throws m -> (forall a, never_throws (k a)) -> never_throws (bind m k).
Proof.
  intros Hm Hk w. unfold bind. cbv zeta.
  destruct (Hm w) as [a Ha]. rewrite Ha. cbn. apply Hk.
Qed.

Lemma total_when (c : bool) (m : M C unit) :
  never_throws m -> never_throws (when c m).
Proof. intros Hm. destruct c; [exact Hm | apply total_ret]. Qed.

(** A computation of type unit that never throws completes with [tt]. *)
Lemma total_unit (m : M C unit) (w : Account C) :
  never_throws m -> completion (m w) = Normal tt.
Proof. intros Hm. destruct (Hm w) as [[] Ha]. exact Ha. Qed.

Create HintDb footprint.

#[local] Hint Resolve keeps_ret keeps_throw keeps_emit keeps_get keeps_bind
  keeps_try_catch keeps_when keeps_await
  only_ret only_throw only_get only_modify only_bind only_when
  total_ret total_emit total_get total_modify total_bind total_when : footprint.

(** Splits a computation along its binds and branches, closing the leaves
    from the hint database. *)
Ltac footprint :=
  repeat first
    [ progress (intros)
    | solve [auto with footprint]
    | apply keeps_bind | apply only_bind | apply total_bind
    | apply keeps_try_catch
    | apply keeps_when | apply only_when | apply total_when
    | apply keeps_modify; reflexivity
    | apply only_emit; reflexivity
    | match goal with
      | |- context [match ?x with _ => _ end] => destruct x
      | |- context [if ?b then _ else _] => destruct b
      end ].

(** ** The policy and the update handler *)

Lemma scheduler_cancel_keeps : keeps_deviceState (C:=C) scheduler_cancel.
Proof. unfold scheduler_cancel. footprint. Qed.

Lemma scheduler_schedule_keeps action delay :
  keeps_deviceState (C:=C) (scheduler_schedule action delay).
Proof. unfold scheduler_schedule. footprint. Qed.

Lemma handleAccountExpiry_keeps env : keeps_deviceState (handleAccountExpiry C env).
Proof.
  unfold handleAccountExpiry, scheduler_cancel, scheduler_schedule. footprint.
Qed.

Lemma handleAccountExpiry_only env :
  emits_only is_callback_effect (handleAccountExpiry C env).
Proof.
  unfold handleAccountExpiry, scheduler_cancel, scheduler_schedule. footprint.
Qed.

Lemma handleAccountExpiry_total env : never_throws (handleAccountExpiry C env).
Proof.
  unfold handleAccountExpiry, scheduler_cancel, scheduler_schedule. footprint.
Qed.

#[local] Hint Resolve handleAccountExpiry_keeps handleAccountExpiry_only
  handleAccountExpiry_total : footprint.

Lemma updateHandler_keeps env data : keeps_deviceState (updateHandler C env data).
Proof.
  unfold updateHandler. footprint.
Qed.

Lemma updateHandler_only env data :
  emits_only is_callback_effect (updateHandler C env data).
Proof.
  unfold updateHandler. footprint.
Qed.

Lemma updateHandler_total env data : never_throws (updateHandler C env data).
Proof.
  unfold updateHandler. footprint.
Qed.

Lemma run_callbacks_keeps env callbacks :
  keeps_deviceState (run_callbacks C env callbacks).
Proof.
  induction callbacks as [| [token | data] rest IH]; cbn [run_callbacks].
  - apply keeps_ret.
  - apply keeps_bind; [unfold fetchHandler; apply keeps_emit | intros _; exact IH].
  - apply keeps_bind; [apply updateHandler_keeps | intros _; exact IH].
Qed.

Lemma run_callbacks_only env callbacks :
  emits_only is_callback_effect (run_callbacks C env callbacks).
Proof.
  induction callbacks as [| [token | data] rest IH]; cbn [run_callbacks].
  - apply only_ret.
  - apply only_bind; [unfold fetchHandler; apply only_emit; reflexivity | intros _; exact IH].
  - apply only_bind; [apply updateHandler_only | intros _; exact IH].
Qed.

Lemma run_callbacks_total env callbacks :
  never_throws (run_callbacks C env callbacks).
Proof.
  induction callbacks as [| [token | data] rest IH]; cbn [run_callbacks].
  - apply total_ret.
  - apply total_bind; [unfold fetchHandler; apply total_emit | intros _; exact IH].
  - apply total_bind; [apply updateHandler_total | intros _; exact IH].
Qed.

#[local] Hint Resolve run_callbacks_keeps run_callbacks_only run_callbacks_total
  : footprint.

(** ** Calls on the cache *)

(** A call on the cache is logged first; whatever follows comes from the
    handlers the cache calls. *)
Lemma cache_call_effects env call method (w : Account C) :
  exists handled,
    effects (cache_call C env call method w) = call :: handled
    /\ forallb is_callback_effect handled = true.
Proof.
  unfold cache_call, bind, emit, get, modify. cbn.
  destruct (method (accountDataCache w)) as [cache' callbacks]. cbn.
  eexists. split; [reflexivity |]. apply run_callbacks_only.
Qed.

Lemma cache_call_keeps env call method :
  keeps_deviceState (cache_call C env call method).
Proof.
  unfold cache_call. footprint.
Qed.

Lemma cache_call_total env call method :
  never_throws (cache_call C env call method).
Proof.
  unfold cache_call. footprint.
Qed.

(** An update effect is neither a call on the cache nor the start of a
    history refresh. *)
Lemma callback_effects_filter (keep : Effect -> bool) (l : list Effect) :
  (forall e, is_callback_effect e = true -> keep e = false) ->
  forallb is_callback_effect l = true -> filter keep l = [].
Proof.
  intros Hkeep. induction l as [| e l IH]; cbn; [reflexivity |].
  intros H. apply andb_prop in H as [He Hl].
  rewrite (Hkeep e He). auto.
Qed.

Lemma callback_effect_not_cache_call e :
  is_callback_effect e = true -> is_cache_call e = false.
Proof.
  destruct e as [? | | ? ? | | ? ? | ? | | | call | ? ? | ? | ? | ?]; cbn;
    first [congruence | destruct call; congruence].
Qed.

Lemma callback_effect_not_cache_fetch e :
  is_callback_effect e = true -> is_cache_fetch e = false.
Proof.
  destruct e as [? | | ? ? | | ? ? | ? | | | call | ? ? | ? | ? | ?]; cbn;
    first [congruence | destruct call; congruence].
Qed.

Lemma callback_effect_not_history_refresh e :
  is_callback_effect e = true -> is_history_refresh e = false.
Proof.
  destruct e as [? | | ? ? | | ? ? | ? | | | call | ? ? | ? | ? | ?]; cbn;
    first [congruence | destruct call; congruence].
Qed.

Lemma callback_effects_weaken (allowed : Effect -> bool) (l : list Effect) :
  (forall e, is_callback_effect e = true -> allowed e = true) ->
  forallb is_callback_effect l = true -> forallb allowed l = true.
Proof.
  intros Himp H. rewrite forallb_forall in *. auto.
Qed.

(** ** The expiry notification policy *)

(** When the timer of an armed scheduler fires, the scheduler is idle and
    the policy runs. *)
Lemma timerFires_armed env (w : Account C) delay :
  pending (accountExpiryNotificationScheduler w)
    = Some (CallHandleAccountExpiry, delay) ->
  let fired := timerFires C env w in
  let policy := handleAccountExpiry C env (set_scheduler (mkScheduler None) w) in
  completion fired = completion policy
  /\ final fired = final policy
  /\ effects fired = effects policy.
Proof.
  intros Hp. unfold timerFires, bind, get, modify. cbn. rewrite Hp. cbn.
  repeat split.
Qed.

(** The four ways the policy runs. *)

Lemma handleAccountExpiry_run_none env (w : Account C) :
  accountData w = None ->
  handleAccountExpiry C env w = mkRun (Normal tt) w [].
Proof.
  intros Hdata. unfold handleAccountExpiry, bind, get. cbn.
  rewrite Hdata. reflexivity.
Qed.

Lemma handleAccountExpiry_run_expired env (w : Account C) data :
  accountData w = Some data ->
  AccountExpired_mayDisplay C (expiry data) (getTunnelState env) (Date_now env) = true ->
  handleAccountExpiry C env w =
    mkRun (Normal tt) (set_scheduler (mkScheduler None) w)
      [SchedulerCancel;
       DelegateNotify (AccountExpiredNotification (expiry data) (getTunnelState env))].
Proof.
  intros Hdata Hexpired. unfold handleAccountExpiry, bind, get. cbn.
  rewrite Hdata. cbn. rewrite Hexpired. reflexivity.
Qed.

Lemma handleAccountExpiry_run_soon env (w : Account C) data :
  accountData w = Some data ->
  AccountExpired_mayDisplay C (expiry data) (getTunnelState env) (Date_now env) = false ->
  Scheduler_isRunning (accountExpiryNotificationScheduler w) = false ->
  CloseToAccountExpiry_mayDisplay C (expiry data) (getLocale env) (Date_now env) = true ->
  let delay :=
    Js.Math_min (Js.Num twelveHours) (Js.sub (expiry data) (Js.Num (Date_now env))) in
  handleAccountExpiry C env w =
    mkRun (Normal tt)
      (set_scheduler (mkScheduler (Some (CallHandleAccountExpiry, delay))) w)
      [DelegateNotify (CloseToAccountExpiryNotification (expiry data) (getLocale env));
       SchedulerSchedule CallHandleAccountExpiry delay].
Proof.
  intros Hdata Hexpired Hidle Hsoon. unfold handleAccountExpiry, bind, get. cbn.
  rewrite Hdata. cbn. rewrite Hexpired, Hidle, Hsoon. reflexivity.
Qed.

Lemma handleAccountExpiry_run_armed env (w : Account C) data :
  accountData w = Some data ->
  AccountExpired_mayDisplay C (expiry data) (getTunnelState env) (Date_now env) = false ->
  Scheduler_isRunning (accountExpiryNotificationScheduler w) = true ->
  handleAccountExpiry C env w = mkRun (Normal tt) w [].
Proof.
  intros Hdata Hexpired Harmed. unfold handleAccountExpiry, bind, get. cbn.
  rewrite Hdata. cbn. rewrite Hexpired, Harmed. reflexivity.
Qed.

(** C1. When account data is present and the expired provider may display,
    the policy cancels the schedule, then notifies the delegate of the
    expired account exactly once, and arms nothing: the trace is the cancel
    followed by the one notification, and the scheduler ends up idle. *)
Theorem handleAccountExpiry_expired env (w : Account C) data :
  accountData w = Some data ->
  AccountExpired_mayDisplay C (expiry data) (getTunnelState env) (Date_now env) = true ->
  let r := handleAccountExpiry C env w in
  effects r =
    [SchedulerCancel;
     DelegateNotify (AccountExpiredNotification (expiry data) (getTunnelState env))]
  /\ filter is_schedule (effects r) = []
  /\ Scheduler_isRunning (accountExpiryNotificationScheduler (final r)) = false
  /\ final r = set_scheduler (mkScheduler None) w
  /\ completion r = Normal tt.
Proof.
  intros Hdata Hexpired r. subst r.
  rewrite (handleAccountExpiry_run_expired env w data Hdata Hexpired).
  repeat split.
Qed.

(** C2. When account data is present and the expired provider may not
    display: if no schedule is armed and the expiring-soon provider may
    display, the policy notifies the delegate once and then arms the
    scheduler to call the policy again after min(12 hours, expiry - now)
    milliseconds (90 minutes for an expiry 90 minutes ahead, 12 hours for an
    expiry 20 hours ahead); if a schedule is armed already, it does
    nothing. *)
Theorem handleAccountExpiry_closeToExpiry env (w : Account C) data :
  accountData w = Some data ->
  AccountExpired_mayDisplay C (expiry data) (getTunnelState env) (Date_now env) = false ->
  let r := handleAccountExpiry C env w in
  let delay :=
    Js.Math_min (Js.Num (12 * 60 * 60 * 1000))
                (Js.sub (expiry data) (Js.Num (Date_now env))) in
  (Scheduler_isRunning (accountExpiryNotificationScheduler w) = false ->
   CloseToAccountExpiry_mayDisplay C (expiry data) (getLocale env) (Date_now env) = true ->
     effects r =
       [DelegateNotify (CloseToAccountExpiryNotification (expiry data) (getLocale env));
        SchedulerSchedule CallHandleAccountExpiry delay]
     /\ pending (accountExpiryNotificationScheduler (final r))
          = Some (CallHandleAccountExpiry, delay)
     /\ (forall env',
           let fired := timerFires C env' (final r) in
           let policy :=
             handleAccountExpiry C env' (set_scheduler (mkScheduler None) (final r)) in
           completion fired = completion policy
           /\ final fired = final policy
           /\ effects fired = effects policy)
     /\ (forall t, expiry data = Js.Num t ->
           delay = Js.Num (Z.min (12 * 60 * 60 * 1000) (t - Date_now env)))
     /\ (expiry data = Js.Num (Date_now env + minutes 90) ->
           delay = Js.Num (minutes 90))
     /\ (expiry data = Js.Num (Date_now env + hours 20) ->
           delay = Js.Num (hours 12)))
  /\ (Scheduler_isRunning (accountExpiryNotificationScheduler w) = true ->
        effects r = [] /\ final r = w /\ completion r = Normal tt).
Proof.
  intros Hdata Hexpired r delay. subst r. split.
  - intros Hidle Hsoon.
    rewrite (handleAccountExpiry_run_soon env w data Hdata Hexpired Hidle Hsoon).
    cbn [effects final completion].
    split; [reflexivity |]. split; [reflexivity |].
    split; [| split; [| split]].
    + intros env'. apply (timerFires_armed env' _ delay). reflexivity.
    + intros t Ht. subst delay. rewrite Ht. reflexivity.
    + intros Ht. subst delay. rewrite Ht. unfold Js.Math_min, Js.sub, minutes.
      f_equal. lia.
    + intros Ht. subst delay. rewrite Ht. unfold Js.Math_min, Js.sub, hours.
      f_equal. lia.
  - intros Harmed.
    rewrite (handleAccountExpiry_run_armed env w data Hdata Hexpired Harmed).
    repeat split.
Qed.

(** C10. Without account data the policy does nothing: no effect at all and
    the state, the armed schedule included, is as before; also when the data
    has just become absent through the update handler, the schedule armed
    before that is still pending. *)
Theorem handleAccountExpiry_no_data env (w : Account C) :
  accountData w = None ->
  let r := handleAccountExpiry C env w in
  (effects r = [] /\ final r = w /\ completion r = Normal tt)
  /\ (forall w0 : Account C,
        let r0 := updateHandler C env None w0 in
        accountExpiryNotificationScheduler (final r0)
          = accountExpiryNotificationScheduler w0
        /\ filter is_notify (effects r0) = []
        /\ forallb (fun e => match e with
                            | SchedulerCancel | SchedulerSchedule _ _ => false
                            | _ => true
                            end) (effects r0) = true).
Proof.
  intros Hdata r. subst r. split.
  - rewrite (handleAccountExpiry_run_none env w Hdata). repeat split.
  - intros w0. unfold updateHandler, handleAccountExpiry, bind, get, modify, when.
    cbn. destruct (account_notify (ipc env)); cbn; repeat split.
Qed.

(** ** Device events *)

Lemma accountDataCache_fetch_keeps env token :
  keeps_deviceState (accountDataCache_fetch C env token).
Proof. apply cache_call_keeps. Qed.

Lemma accountDataCache_invalidate_keeps env :
  keeps_deviceState (accountDataCache_invalidate C env).
Proof. apply cache_call_keeps. Qed.

Lemma accountDataCache_handleVoucherResponse_keeps env token response :
  keeps_deviceState (accountDataCache_handleVoucherResponse C env token response).
Proof. apply cache_call_keeps. Qed.

Lemma updateAccountHistory_keeps : keeps_deviceState (updateAccountHistory C).
Proof. unfold updateAccountHistory. footprint. Qed.

#[local] Hint Resolve accountDataCache_fetch_keeps accountDataCache_invalidate_keeps
  accountDataCache_handleVoucherResponse_keeps updateAccountHistory_keeps
  : footprint.

(** The whole trace of one device event: the post-upgrade check if one is
    pending, the call on the cache and what the update handler does during
    it, the start of the history refresh, the tray menu, the IPC
    notification. *)
Lemma handleDeviceEvent_run env deviceEvent (w : Account C) :
  let r := handleDeviceEvent C env deviceEvent w in
  let call :=
    match deviceState deviceEvent with
    | LoggedIn accountAndDevice => CacheFetch (accountToken accountAndDevice)
    | LoggedOut | Revoked => CacheInvalidate
    end in
  completion r = Normal tt
  /\ deviceStateValue (final r) = Some (deviceState deviceEvent)
  /\ exists handled,
       forallb is_callback_effect handled = true
       /\ effects r =
            (if isPerformingPostUpgradeCheck env
             then [DelegatePerformPostUpgradeCheck] else [])
            ++ call :: handled
            ++ [DaemonRpc RpcGetAccountHistory; DelegateSetTrayContextMenu]
            ++ (if account_notifyDevice (ipc env)
                then [IpcAccountNotifyDevice deviceEvent] else []).
Proof.
  intros r call. subst r call.
  unfold handleDeviceEvent, accountDataCache_fetch, accountDataCache_invalidate.
  destruct (isPerformingPostUpgradeCheck env), (account_notifyDevice (ipc env));
  destruct (deviceState deviceEvent) as [accountAndDevice | |];
  unfold bind, modify, when, emit, updateAccountHistory, ret;
  cbn -[cache_call];
  match goal with
  | |- context [cache_call C env ?call ?method ?w'] =>
      pose proof (total_unit _ w' (cache_call_total env call method)) as Hc;
      destruct (cache_call_effects env call method w') as [handled [He Hu]];
      pose proof (cache_call_keeps env call method w') as Hk;
      destruct (cache_call C env call method w') as [c f eff]
  end.
  all: cbn in *; subst; cbn.
  all: split; [reflexivity | split; [exact Hk |]].
  all: exists handled; split; [exact Hu | reflexivity].
Qed.

(** C4. After each call of [handleDeviceEvent] the stored device state is
    the state the event carries, whatever was stored before; so along any
    run of device events the states stored after the calls are, in order,
    the states of the events delivered (the last one wins, a repeated event
    included). *)
Theorem handleDeviceEvent_last_write_wins :
  (forall env deviceEvent (w : Account C),
     deviceStateValue (final (handleDeviceEvent C env deviceEvent w))
       = Some (deviceState deviceEvent)
     /\ completion (handleDeviceEvent C env deviceEvent w) = Normal tt)
  /\ (forall (events : list (Env * DeviceEvent)) (w : Account C),
        deviceStates_after C events w
          = map (fun delivered => Some (deviceState (snd delivered))) events).
Proof.
  split.
  - intros env deviceEvent w.
    destruct (handleDeviceEvent_run env deviceEvent w) as [Hc [Hs _]]. auto.
  - induction events as [| [env deviceEvent] rest IH]; intros w; cbn.
    + reflexivity.
    + rewrite IH. f_equal.
      apply (handleDeviceEvent_run env deviceEvent w).
Qed.

(** C5. One device event makes exactly one call on the cache: a fetch for
    the account token of the event when its state is 'logged in', an
    invalidate when it is 'logged out' or 'revoked'; and that call comes
    before the one start of the account-history refresh. *)
Theorem handleDeviceEvent_cache_call env deviceEvent (w : Account C) :
  let r := handleDeviceEvent C env deviceEvent w in
  let call :=
    match deviceState deviceEvent with
    | LoggedIn accountAndDevice => CacheFetch (accountToken accountAndDevice)
    | LoggedOut | Revoked => CacheInvalidate
    end in
  filter is_cache_call (effects r) = [call]
  /\ exists before between after,
       effects r
         = before ++ call :: between ++ DaemonRpc RpcGetAccountHistory :: after
       /\ forallb not_history_refresh (before ++ call :: between) = true
       /\ forallb not_history_refresh after = true
       /\ forallb not_cache_call
            (before ++ between ++ DaemonRpc RpcGetAccountHistory :: after) = true.
Proof.
  intros r call.
  destruct (handleDeviceEvent_run env deviceEvent w) as [_ [_ [handled [Hu He]]]].
  fold r in He. fold call in He.
  assert (Hcall : is_cache_call call = true /\ not_history_refresh call = true).
  { subst call. destruct (deviceState deviceEvent); split; reflexivity. }
  destruct Hcall as [Hcall Hcall'].
  pose proof (callback_effects_filter is_cache_call handled
                callback_effect_not_cache_call Hu) as Hnone.
  assert (Hh : forallb not_history_refresh handled = true).
  { apply callback_effects_weaken; [| exact Hu].
    intros e H. unfold not_history_refresh.
    now rewrite (callback_effect_not_history_refresh e H). }
  assert (Hn : forallb not_cache_call handled = true).
  { apply callback_effects_weaken; [| exact Hu].
    intros e H. unfold not_cache_call.
    now rewrite (callback_effect_not_cache_call e H). }
  split.
  - rewrite He. rewrite filter_app. cbn [filter]. rewrite Hcall.
    rewrite filter_app, Hnone.
    destruct (isPerformingPostUpgradeCheck env), (account_notifyDevice (ipc env));
      reflexivity.
  - exists (if isPerformingPostUpgradeCheck env
            then [DelegatePerformPostUpgradeCheck] else []),
           handled,
           (DelegateSetTrayContextMenu ::
              (if account_notifyDevice (ipc env)
               then [IpcAccountNotifyDevice deviceEvent] else [])).
    split; [exact He |].
    repeat rewrite forallb_app. cbn [forallb]. rewrite Hcall', Hh, Hn.
    destruct (isPerformingPostUpgradeCheck env), (account_notifyDevice (ipc env));
      repeat split.
Qed.

(** ** Stale expiry *)

Lemma hasExpired_spec env (w : Account C) :
  hasExpired C env w = true <->
  accountData w = None
  \/ exists data t,
       accountData w = Some data /\ expiry data = Js.Num t /\ t <= Date_now env.
Proof.
  unfold hasExpired. destruct (accountData w) as [data |].
  - destruct data as [[t |]]; cbn; split.
    + intros H. right. exists (mkAccountData (Js.Num t)), t.
      repeat split. now apply Z.leb_le.
    + intros [H | [data [t' [Hd [Ht Hle]]]]]; [discriminate |].
      inversion Hd; subst. cbn in Ht. inversion Ht; subst. now apply Z.leb_le.
    + discriminate.
    + intros [H | [data [t' [Hd [Ht Hle]]]]]; [discriminate |].
      inversion Hd; subst. discriminate.
  - split; auto.
Qed.

Lemma detectStaleAccountExpiry_run env tunnelState (w : Account C) :
  let r := detectStaleAccountExpiry C env tunnelState w in
  if String.eqb (state tunnelState) "connected" && hasExpired C env w
  then exists handled,
         forallb is_callback_effect handled = true
         /\ effects r =
              Log LogInfo "Detected the stale account expiry."
              :: CacheInvalidate :: handled
  else r = mkRun (Normal tt) w [].
Proof.
  intros r. subst r. unfold detectStaleAccountExpiry, bind, get. cbn [completion final effects].
  destruct (String.eqb (state tunnelState) "connected" && hasExpired C env w).
  - unfold log_, emit, accountDataCache_invalidate. cbn [completion final effects].
    destruct (cache_call_effects env CacheInvalidate (cache_invalidate C) w)
      as [handled [He Hu]].
    exists handled. split; [exact Hu |].
    rewrite He. reflexivity.
  - reflexivity.
Qed.

(** C3. [detectStaleAccountExpiry] invalidates the cache exactly when the
    tunnel state is 'connected' and either no account data is stored or the
    stored expiry is at or before the current time; it makes no other call
    on the cache, and with a tunnel that is not connected it does nothing,
    whatever the expiry. *)
Theorem detectStaleAccountExpiry_invalidates env tunnelState (w : Account C) :
  let r := detectStaleAccountExpiry C env tunnelState w in
  (In CacheInvalidate (effects r) <->
     state tunnelState = "connected"
     /\ (accountData w = None
         \/ exists data t,
              accountData w = Some data /\ expiry data = Js.Num t
              /\ t <= Date_now env))
  /\ (filter is_cache_call (effects r) = [CacheInvalidate]
      \/ filter is_cache_call (effects r) = [])
  /\ (state tunnelState <> "connected" -> effects r = [] /\ final r = w).
Proof.
  intros r. pose proof (detectStaleAccountExpiry_run env tunnelState w) as Hrun.
  fold r in Hrun. cbv zeta in Hrun.
  pose proof (hasExpired_spec env w) as Hspec.
  destruct (String.eqb_spec (state tunnelState) "connected") as [Hconn | Hconn];
    destruct (hasExpired C env w); cbn [andb] in Hrun.
  - destruct Hrun as [handled [Hu He]]. rewrite He. split; [| split].
    + split; [intros _ | intros _; cbn; auto].
      split; [exact Hconn | now apply Hspec].
    + left. cbn.
      now rewrite (callback_effects_filter is_cache_call handled
                     callback_effect_not_cache_call Hu).
    + intros H. contradiction.
  - rewrite Hrun. cbn. split; [| split].
    + split; [contradiction |]. intros [_ H]. apply Hspec in H. discriminate.
    + now right.
    + auto.
  - rewrite Hrun. cbn. split; [| split].
    + split; [contradiction |]. intros [H _]. contradiction.
    + now right.
    + auto.
  - rewrite Hrun. cbn. split; [| split].
    + split; [contradiction |]. intros [H _]. contradiction.
    + now right.
    + auto.
Qed.

(** ** Commands *)

(** An async method that only reads the state before its await: the state
    at the end of the whole call is the one its continuation leaves. *)
Lemma run_async_deviceState {A B} (method : Async C A B) between settled env
    (w : Account C) k trace :
  method w = mkRun (Normal k) w trace ->
  keeps_deviceState (k settled env) ->
  deviceStateValue (final (run_async method between settled env w))
    = deviceStateValue (between w).
Proof.
  intros Hm Hk. unfold run_async. rewrite Hm. cbn. apply Hk.
Qed.

Lemma setAccountHistory_keeps env history :
  keeps_deviceState (setAccountHistory C env history).
Proof. unfold setAccountHistory. footprint. Qed.

Lemma updateAccountData_keeps env : keeps_deviceState (updateAccountData C env).
Proof. unfold updateAccountData. footprint. Qed.

Lemma detectStaleAccountExpiry_keeps env tunnelState :
  keeps_deviceState (detectStaleAccountExpiry C env tunnelState).
Proof. unfold detectStaleAccountExpiry, log_. footprint. Qed.

Lemma timerFires_keeps env : keeps_deviceState (timerFires C env).
Proof. unfold timerFires. footprint. Qed.

#[local] Hint Resolve setAccountHistory_keeps scheduler_cancel_keeps : footprint.

(** C9. No command changes the stored device state: for [createNewAccount],
    [login] and [logout], however the daemon call settles, the device state
    after the part before the await is the one before it, and the device
    state after the whole call is the one found when the call resumed.  The
    same holds of every other method but [handleDeviceEvent]: the update
    handler, the policy and the timer, [updateAccountData],
    [detectStaleAccountExpiry], [setAccountHistory], the history refresh and
    the voucher handler. *)
Theorem commands_keep_deviceState :
  (keeps_deviceState (createNewAccount C)
   /\ forall between settled env (w : Account C),
        deviceStateValue (final (run_async (createNewAccount C) between settled env w))
          = deviceStateValue (between w))
  /\ (forall token,
        keeps_deviceState (login C token)
        /\ forall between settled env (w : Account C),
             deviceStateValue (final (run_async (login C token) between settled env w))
               = deviceStateValue (between w))
  /\ (keeps_deviceState (logout C)
      /\ forall between settled env (w : Account C),
           deviceStateValue (final (run_async (logout C) between settled env w))
             = deviceStateValue (between w))
  /\ (forall env data, keeps_deviceState (updateHandler C env data))
  /\ (forall env, keeps_deviceState (handleAccountExpiry C env))
  /\ (forall env, keeps_deviceState (timerFires C env))
  /\ (forall env, keeps_deviceState (updateAccountData C env))
  /\ (forall env tunnelState,
        keeps_deviceState (detectStaleAccountExpiry C env tunnelState))
  /\ (forall env history, keeps_deviceState (setAccountHistory C env history))
  /\ (forall between settled env (w : Account C),
        deviceStateValue (final (run_async (updateAccountHistory C) between settled env w))
          = deviceStateValue (between w))
  /\ (forall voucherCode between settled env (w : Account C),
        deviceStateValue
          (final (run_async (handleSubmitVoucher C voucherCode) between settled env w))
          = deviceStateValue (between w)).
Proof.
  repeat match goal with |- _ /\ _ => split end.
  - unfold createNewAccount. footprint.
  - intros. eapply run_async_deviceState; [reflexivity |]. unfold log_. footprint.
  - intros token. split.
    + unfold login. footprint.
    + intros. eapply run_async_deviceState; [reflexivity |]. unfold log_. footprint.
  - unfold logout. footprint.
  - intros. eapply run_async_deviceState; [reflexivity |]. unfold log_. footprint.
  - apply updateHandler_keeps.
  - apply handleAccountExpiry_keeps.
  - apply timerFires_keeps.
  - apply updateAccountData_keeps.
  - apply detectStaleAccountExpiry_keeps.
  - apply setAccountHistory_keeps.
  - intros. eapply run_async_deviceState; [reflexivity |]. unfold log_. footprint.
  - intros. eapply run_async_deviceState; [reflexivity |]. footprint.
Qed.

(** C6 (amended). [logout] cancels the expiry-notification schedule when the
    daemon call succeeds: the trace is the daemon call and the cancel, and the
    scheduler ends up idle.  When the daemon call fails, the state is left as
    the call found it, the failure is logged at info level and the same error
    is thrown again. *)
Theorem logout_cancels_on_success between settled env (w : Account C) :
  let r := run_async (logout C) between settled env w in
  match settled with
  | Js.Resolved _ =>
      completion r = Normal tt
      /\ effects r = [DaemonRpc RpcLogoutAccount; SchedulerCancel]
      /\ final r = set_scheduler (mkScheduler None) (between w)
      /\ Scheduler_isRunning (accountExpiryNotificationScheduler (final r)) = false
  | Js.Rejected error =>
      completion r = Throw error
      /\ effects r =
           [DaemonRpc RpcLogoutAccount;
            Log LogInfo ("Failed to logout: " ++ Js.message error)%string]
      /\ final r = between w
  end.
Proof.
  destruct settled as [[] | error]; cbn; repeat split.
Qed.

(** C7. [login]: when the daemon call succeeds, login completes without an
    error; when it fails, the failure is logged, and the caller gets a plain
    error whose message is the translation of 'Invalid account number', not
    the error of the daemon, if that one is an invalid-account error, and the
    error of the daemon itself otherwise. *)
Theorem login_errors token between settled env (w : Account C) :
  let r := run_async (login C token) between settled env w in
  match settled with
  | Js.Resolved _ =>
      completion r = Normal tt
      /\ effects r = [DaemonRpc (RpcLoginAccount token)]
  | Js.Rejected error =>
      effects r =
        [DaemonRpc (RpcLoginAccount token);
         Log LogError ("Failed to login: " ++ Js.message error)%string]
      /\ if Js.instanceofInvalidAccountError error
         then completion r = Throw (Js.Error_ (gettext C "Invalid account number"))
              /\ Js.message (Js.Error_ (gettext C "Invalid account number"))
                   = gettext C "Invalid account number"
              /\ Js.Error_ (gettext C "Invalid account number") <> error
         else completion r = Throw error
  end.
Proof.
  destruct settled as [[] | error]; cbn.
  - repeat split.
  - destruct (Js.instanceofInvalidAccountError error) eqn:Hinvalid; cbn.
    + repeat split. intros Heq. rewrite <- Heq in Hinvalid. discriminate.
    + repeat split.
Qed.

Lemma truthy_spec (s : string) : Js.truthy s = true <-> s <> "".
Proof.
  destruct s; cbn; split; intros H; congruence.
Qed.

(** C8. A voucher submitted while an account is active with token X, and
    accepted by the daemon call: the handler calls
    [handleVoucherResponse(X, response)] on the cache, with the token read
    before the await, makes no other call on the cache (no fetch in
    particular), and returns the response.  An account is active when the
    device is logged in and the token the handler reads (line 70) passes its
    own test (line 73), which every token but the empty string does. *)
Theorem handleSubmitVoucher_updates_cache voucherCode accountAndDevice
    between response env (w : Account C) :
  deviceState_ w = Some (LoggedIn accountAndDevice) ->
  accountToken accountAndDevice <> "" ->
  let X := accountToken accountAndDevice in
  let r := run_async (handleSubmitVoucher C voucherCode) between
             (Js.Resolved response) env w in
  completion r = Normal response
  /\ filter is_cache_call (effects r) = [CacheHandleVoucherResponse X response]
  /\ filter is_cache_fetch (effects r) = []
  /\ exists handled,
       forallb is_callback_effect handled = true
       /\ effects r =
            DaemonRpc (RpcSubmitVoucher voucherCode)
            :: CacheHandleVoucherResponse X response :: handled.
Proof.
  intros Hstate Htoken X r. subst r.
  apply truthy_spec in Htoken. fold X in Htoken.
  unfold deviceState_ in Hstate.
  unfold run_async, handleSubmitVoucher, getAccountToken, deviceState_,
    accountDataCache_handleVoucherResponse, bind, get, emit, ret, await, when.
  cbn -[cache_call]. rewrite Hstate. fold X. rewrite Htoken.
  match goal with
  | |- context [cache_call C env ?call ?method ?w'] =>
      pose proof (total_unit _ w' (cache_call_total env call method)) as Hc;
      destruct (cache_call_effects env call method w') as [handled [He Hu]];
      destruct (cache_call C env call method w') as [c f eff]
  end.
  cbn in *. subst. cbn. rewrite app_nil_r.
  rewrite (callback_effects_filter is_cache_call handled
             callback_effect_not_cache_call Hu).
  rewrite (callback_effects_filter is_cache_fetch handled
             callback_effect_not_cache_fetch Hu).
  repeat split. exists handled. auto.
Qed.

(** ** Frames of single fields *)

Lemma frame_ret {X} (field : Account C -> X) {A} (a : A) : keeps field (ret a).
Proof. intros w. reflexivity. Qed.

Lemma frame_throw {X} (field : Account C -> X) {A} (e : Js.Error) :
  keeps field (A:=A) (throw e).
Proof. intros w. reflexivity. Qed.

Lemma frame_emit {X} (field : Account C -> X) (e : Effect) : keeps field (emit e).
Proof. intros w. reflexivity. Qed.

Lemma frame_get {X} (field : Account C -> X) : keeps field get.
Proof. intros w. reflexivity. Qed.

Lemma frame_modify {X} (field : Account C -> X) (f : Account C -> Account C) :
  (forall w, field (f w) = field w) -> keeps field (modify f).
Proof. intros Hf w. apply Hf. Qed.

Lemma frame_bind {X} (field : Account C -> X) {A B} (m : M C A) (k : A -> M C B) :
  keeps field m -> (forall a, keeps field (k a)) -> keeps field (bind m k).
Proof.
  intros Hm Hk w. unfold bind. cbv zeta.
  destruct (completion (m w)) as [a | e]; cbn.
  - rewrite Hk. apply Hm.
  - apply Hm.
Qed.

Lemma frame_try_catch {X} (field : Account C -> X) {A} (m : M C A)
    (handler : Js.Error -> M C A) :
  keeps field m -> (forall e, keeps field (handler e)) ->
  keeps field (try_catch m handler).
Proof.
  intros Hm Hh w. unfold try_catch. cbv zeta.
  destruct (completion (m w)) as [a | e]; cbn.
  - apply Hm.
  - rewrite Hh. apply Hm.
Qed.

Lemma frame_when {X} (field : Account C -> X) (c : bool) (m : M C unit) :
  keeps field m -> keeps field (when c m).
Proof. intros Hm. destruct c; [exact Hm | apply frame_ret]. Qed.

Lemma frame_await {X} (field : Account C -> X) {A} (p : Js.Settled A) :
  keeps field (await p).
Proof. destruct p; [apply frame_ret | apply frame_throw]. Qed.

Create HintDb frames.

#[local] Hint Resolve frame_ret frame_throw frame_emit frame_get frame_await
  : frames.

(** As [footprint], for the frame of one field. *)
Ltac frame :=
  repeat first
    [ progress (intros)
    | solve [auto with frames]
    | apply frame_bind
    | apply frame_try_catch
    | apply frame_when
    | apply frame_modify; reflexivity
    | match goal with
      | |- context [match ?x with _ => _ end] => destruct x
      | |- context [if ?b then _ else _] => destruct b
      end ].

(** When the first step cannot throw, the rest runs on the state it
    leaves. *)
Lemma bind_final (m : M C unit) {B} (k : unit -> M C B) (w : Account C) :
  never_throws m ->
  final (bind m k w) = final (k tt (final (m w)))
  /\ completion (bind m k w) = completion (k tt (final (m w)))
  /\ effects (bind m k w) = effects (m w) ++ effects (k tt (final (m w))).
Proof.
  intros Hm. unfold bind. cbv zeta.
  rewrite (total_unit m w Hm). cbn. auto.
Qed.

(** The policy writes the scheduler and nothing else. *)

Lemma handleAccountExpiry_keeps_data env :
  keeps accountDataValue (handleAccountExpiry C env).
Proof.
  unfold handleAccountExpiry, scheduler_cancel, scheduler_schedule. frame.
Qed.

Lemma handleAccountExpiry_keeps_history env :
  keeps accountHistoryValue (handleAccountExpiry C env).
Proof.
  unfold handleAccountExpiry, scheduler_cancel, scheduler_schedule. frame.
Qed.

Lemma handleAccountExpiry_keeps_cache env :
  keeps accountDataCache (handleAccountExpiry C env).
Proof.
  unfold handleAccountExpiry, scheduler_cancel, scheduler_schedule. frame.
Qed.

#[local] Hint Resolve handleAccountExpiry_keeps_data
  handleAccountExpiry_keeps_history handleAccountExpiry_keeps_cache : frames.

Lemma handleAccountExpiry_policy_effects env :
  emits_only is_policy_effect (handleAccountExpiry C env).
Proof.
  unfold handleAccountExpiry, scheduler_cancel, scheduler_schedule. footprint.
Qed.

(** The state the update handler leaves is the one the policy leaves, run
    on the stored data replaced. *)
Lemma updateHandler_run env data (w : Account C) :
  let r := updateHandler C env data w in
  let policy := handleAccountExpiry C env (set_accountDataValue data w) in
  final r = final policy
  /\ completion r = Normal tt
  /\ effects r =
       (if account_notify (ipc env) then [IpcAccountNotify data] else [])
       ++ effects policy.
Proof.
  intros r policy. subst r policy.
  pose proof (total_unit _ (set_accountDataValue data w)
                (handleAccountExpiry_total env)) as Hc.
  unfold updateHandler, bind, modify, get, when, emit, ret, accountData.
  cbn -[handleAccountExpiry].
  destruct (account_notify (ipc env)); cbn -[handleAccountExpiry];
    rewrite Hc; cbn -[handleAccountExpiry]; auto.
Qed.

Lemma updateHandler_stores env data (w : Account C) :
  accountDataValue (final (updateHandler C env data w)) = data.
Proof.
  destruct (updateHandler_run env data w) as [Hf _]. rewrite Hf.
  now rewrite handleAccountExpiry_keeps_data.
Qed.

Lemma updateHandler_keeps_history env data :
  keeps accountHistoryValue (updateHandler C env data).
Proof. unfold updateHandler. frame. Qed.

#[local] Hint Resolve updateHandler_keeps_history : frames.

Lemma run_callbacks_keeps_history env callbacks :
  keeps accountHistoryValue (run_callbacks C env callbacks).
Proof.
  induction callbacks as [| [token | data] rest IH]; cbn [run_callbacks].
  - apply frame_ret.
  - apply frame_bind; [apply frame_emit | intros _; exact IH].
  - apply frame_bind; [apply updateHandler_keeps_history | intros _; exact IH].
Qed.

#[local] Hint Resolve run_callbacks_keeps_history : frames.

Lemma cache_call_keeps_history env call method :
  keeps accountHistoryValue (cache_call C env call method).
Proof. unfold cache_call. frame. Qed.

#[local] Hint Resolve cache_call_keeps_history : frames.

(** After the handlers the cache called, the stored data is the last value
    handed to the update handler. *)
Lemma run_callbacks_accountData env callbacks (w : Account C) :
  accountDataValue (final (run_callbacks C env callbacks w))
    = last_update callbacks (accountDataValue w).
Proof.
  revert w. induction callbacks as [| [token | data] rest IH]; intros w;
    cbn [run_callbacks last_update].
  - reflexivity.
  - destruct (bind_final (fetchHandler C token)
                (fun _ => run_callbacks C env rest) w) as [Hf _].
    { unfold fetchHandler. apply total_emit. }
    rewrite Hf, IH. reflexivity.
  - destruct (bind_final (updateHandler C env data)
                (fun _ => run_callbacks C env rest) w) as [Hf _].
    { apply updateHandler_total. }
    rewrite Hf, IH. now rewrite updateHandler_stores.
Qed.

Lemma cache_call_accountData env call method (w : Account C) :
  accountDataValue (final (cache_call C env call method w))
    = last_update (snd (method (accountDataCache w))) (accountDataValue w).
Proof.
  unfold cache_call, bind, emit, get, modify. cbn -[run_callbacks].
  destruct (method (accountDataCache w)) as [cache' callbacks].
  cbn -[run_callbacks].
  pose proof (total_unit _ (set_accountDataCache cache' w)
                (run_callbacks_total env callbacks)) as Hc.
  destruct (run_callbacks C env callbacks (set_accountDataCache cache' w))
    as [c f eff] eqn:Hrun.
  cbn in *. subst c. cbn.
  pose proof (run_callbacks_accountData env callbacks
                (set_accountDataCache cache' w)) as Hd.
  rewrite Hrun in Hd. exact Hd.
Qed.

(** ** Getters and [updateAccountData] *)

(** X2. [isLoggedIn()] is true exactly when the stored device state is
    'logged in', which is exactly when [getAccountToken()] gives a token, the
    one of that state; so the token asserted non-null at line 109 is there. *)
Theorem isLoggedIn_iff_token (w : Account C) :
  (isLoggedIn w = true <->
     exists accountAndDevice,
       deviceState_ w = Some (LoggedIn accountAndDevice)
       /\ getAccountToken w = Some (accountToken accountAndDevice))
  /\ (isLoggedIn w = false <-> getAccountToken w = None).
Proof.
  unfold isLoggedIn, getAccountToken, deviceState_.
  destruct (deviceStateValue w) as [[accountAndDevice | |] |]; cbn; split; split;
    try congruence; try (intros [x [H _]]; congruence).
  intros _. exists accountAndDevice. auto.
Qed.

Lemma updateAccountData_run env (w : Account C) :
  let r := updateAccountData C env w in
  completion r = Normal tt
  /\ match daemonRpc_isConnected env, deviceState_ w with
     | true, Some (LoggedIn accountAndDevice) =>
         filter is_cache_call (effects r)
           = [CacheFetch (accountToken accountAndDevice)]
         /\ exists handled,
              forallb is_callback_effect handled = true
              /\ effects r = CacheFetch (accountToken accountAndDevice) :: handled
     | _, _ => effects r = [] /\ final r = w
     end.
Proof.
  intros r. subst r.
  unfold updateAccountData, isLoggedIn, getAccountToken, deviceState_, bind, get.
  cbn [completion final effects].
  destruct (daemonRpc_isConnected env);
    destruct (deviceStateValue w) as [[accountAndDevice | |] |];
    cbn -[cache_call accountDataCache_fetch]; auto.
  unfold accountDataCache_fetch.
  pose proof (total_unit _ w
    (cache_call_total env (CacheFetch (accountToken accountAndDevice))
       (cache_fetch C (accountToken accountAndDevice)))) as Hc.
  destruct (cache_call_effects env (CacheFetch (accountToken accountAndDevice))
              (cache_fetch C (accountToken accountAndDevice)) w)
    as [handled [He Hu]].
  destruct (cache_call C env _ _ w) as [c f eff]. cbn in *. subst.
  split; [reflexivity |]. split.
  - cbn. now rewrite (callback_effects_filter is_cache_call handled
                        callback_effect_not_cache_call Hu).
  - exists handled. auto.
Qed.

(** X1. [updateAccountData] calls the cache exactly once, with a fetch for
    the token of the stored 'logged in' state, when the daemon transport is
    connected and the device is logged in; in every other case it does
    nothing at all.  It never throws. *)
Theorem updateAccountData_fetches_iff_connected_and_logged_in env (w : Account C) :
  let r := updateAccountData C env w in
  completion r = Normal tt
  /\ match daemonRpc_isConnected env, deviceState_ w with
     | true, Some (LoggedIn accountAndDevice) =>
         filter is_cache_call (effects r)
           = [CacheFetch (accountToken accountAndDevice)]
         /\ exists handled,
              forallb is_callback_effect handled = true
              /\ effects r = CacheFetch (accountToken accountAndDevice) :: handled
     | _, _ => effects r = [] /\ final r = w
     end.
Proof. exact (updateAccountData_run env w). Qed.

(** X14. A device event decides what the next [updateAccountData] does:
    after a 'logged out' or 'revoked' event it does nothing, connected or
    not; after a 'logged in' event it fetches the token of that event if the
    transport is connected, and does nothing otherwise. *)
Theorem updateAccountData_after_device_event env env' deviceEvent (w : Account C) :
  let w' := final (handleDeviceEvent C env deviceEvent w) in
  let r := updateAccountData C env' w' in
  match deviceState deviceEvent with
  | LoggedIn accountAndDevice =>
      if daemonRpc_isConnected env'
      then filter is_cache_call (effects r)
             = [CacheFetch (accountToken accountAndDevice)]
      else effects r = [] /\ final r = w'
  | LoggedOut | Revoked => effects r = [] /\ final r = w'
  end.
Proof.
  intros w' r.
  destruct (handleDeviceEvent_run env deviceEvent w) as [_ [Hs _]].
  fold w' in Hs.
  destruct (updateAccountData_run env' w') as [_ Hrun]. fold r in Hrun.
  unfold deviceState_ in Hrun. rewrite Hs in Hrun.
  destruct (deviceState deviceEvent) as [accountAndDevice | |];
    destruct (daemonRpc_isConnected env'); try exact Hrun.
  apply Hrun.
Qed.

(** ** The policy and the update handler, in general *)

Lemma handleAccountExpiry_run_quiet env (w : Account C) data :
  accountData w = Some data ->
  AccountExpired_mayDisplay C (expiry data) (getTunnelState env) (Date_now env) = false ->
  CloseToAccountExpiry_mayDisplay C (expiry data) (getLocale env) (Date_now env) = false ->
  handleAccountExpiry C env w = mkRun (Normal tt) w [].
Proof.
  intros Hdata Hexpired Hsoon. unfold handleAccountExpiry, bind, get. cbn.
  rewrite Hdata. cbn. rewrite Hexpired, Hsoon, andb_false_r. reflexivity.
Qed.

(** X8. Whatever the state and the providers' answers, one run of the policy
    completes normally, writes no field but the scheduler, has no effect in
    its trace but calls on the scheduler and [delegate.notify] (the tunnel
    state and the locale it asks the delegate for are reads), and makes at
    most one notification and at most one call on the scheduler. *)
Theorem handleAccountExpiry_footprint env (w : Account C) :
  let r := handleAccountExpiry C env w in
  completion r = Normal tt
  /\ (exists timer, final r = set_scheduler timer w)
  /\ forallb is_policy_effect (effects r) = true
  /\ (length (filter is_notify (effects r)) <= 1)%nat
  /\ (length (filter is_scheduler_call (effects r)) <= 1)%nat.
Proof.
  intros r. subst r.
  assert (Hsame : w = set_scheduler (accountExpiryNotificationScheduler w) w)
    by (destruct w; reflexivity).
  destruct (accountData w) as [data |] eqn:Hdata.
  - destruct (AccountExpired_mayDisplay C (expiry data) (getTunnelState env)
                (Date_now env)) eqn:Hexpired.
    + rewrite (handleAccountExpiry_run_expired env w data Hdata Hexpired). cbn.
      split; [reflexivity |]. split; [eexists; first [reflexivity | exact Hsame] |].
           split; [reflexivity |]. split; lia.
    + destruct (Scheduler_isRunning (accountExpiryNotificationScheduler w))
        eqn:Hrunning.
      * rewrite (handleAccountExpiry_run_armed env w data Hdata Hexpired Hrunning).
        cbn. split; [reflexivity |]. split; [eexists; first [reflexivity | exact Hsame] |].
           split; [reflexivity |]. split; lia.
      * destruct (CloseToAccountExpiry_mayDisplay C (expiry data) (getLocale env)
                    (Date_now env)) eqn:Hsoon.
        -- rewrite (handleAccountExpiry_run_soon env w data Hdata Hexpired
                      Hrunning Hsoon).
           cbn. split; [reflexivity |]. split; [eexists; first [reflexivity | exact Hsame] |].
           split; [reflexivity |]. split; lia.
        -- rewrite (handleAccountExpiry_run_quiet env w data Hdata Hexpired Hsoon).
           cbn.
           split; [reflexivity |]. split; [eexists; first [reflexivity | exact Hsame] |].
           split; [reflexivity |]. split; lia.
  - rewrite (handleAccountExpiry_run_none env w Hdata). cbn.
    split; [reflexivity |]. split; [eexists; first [reflexivity | exact Hsame] |].
           split; [reflexivity |]. split; lia.
Qed.

(** X9. While the expired notification may not be displayed, the policy
    does not repeat itself: run a second time right after the first, in the
    same environment, it emits nothing and leaves the state as the first run
    left it (the reminder armed by the first run stops the second). *)
Theorem handleAccountExpiry_no_repeat env (w : Account C) :
  (forall data, accountData w = Some data ->
     AccountExpired_mayDisplay C (expiry data) (getTunnelState env) (Date_now env)
       = false) ->
  let first := handleAccountExpiry C env w in
  let second := handleAccountExpiry C env (final first) in
  effects second = [] /\ final second = final first
  /\ completion second = Normal tt.
Proof.
  intros Hnot first second. subst first second.
  destruct (accountData w) as [data |] eqn:Hdata.
  - specialize (Hnot data eq_refl).
    destruct (Scheduler_isRunning (accountExpiryNotificationScheduler w))
      eqn:Hrunning.
    + rewrite (handleAccountExpiry_run_armed env w data Hdata Hnot Hrunning).
      cbn [final].
      rewrite (handleAccountExpiry_run_armed env w data Hdata Hnot Hrunning).
      auto.
    + destruct (CloseToAccountExpiry_mayDisplay C (expiry data) (getLocale env)
                  (Date_now env)) eqn:Hsoon.
      * rewrite (handleAccountExpiry_run_soon env w data Hdata Hnot Hrunning Hsoon).
        cbn [final].
        rewrite (handleAccountExpiry_run_armed env _ data); auto.
      * rewrite (handleAccountExpiry_run_quiet env w data Hdata Hnot Hsoon).
        cbn [final].
        rewrite (handleAccountExpiry_run_quiet env w data Hdata Hnot Hsoon).
        auto.
  - rewrite (handleAccountExpiry_run_none env w Hdata). cbn [final].
    rewrite (handleAccountExpiry_run_none env w Hdata). auto.
Qed.

(** X7. The update handler stores the value it is given and then runs the
    policy on the state with that value stored: it tells the IPC channel the
    value first (if the notifier is installed), and the rest of its trace,
    its outcome and its final state are exactly those of
    [handleAccountExpiry] run there; so the value stays stored, and the
    account history, the device state and the cache are left alone. *)
Theorem updateHandler_stores_then_runs_policy env data (w : Account C) :
  let r := updateHandler C env data w in
  let policy := handleAccountExpiry C env (set_accountDataValue data w) in
  effects r =
    (if account_notify (ipc env) then [IpcAccountNotify data] else [])
    ++ effects policy
  /\ final r = final policy
  /\ completion r = completion policy
  /\ completion r = Normal tt
  /\ forallb is_policy_effect (effects policy) = true
  /\ accountData (final r) = data
  /\ accountHistoryValue (final r) = accountHistoryValue w
  /\ deviceStateValue (final r) = deviceStateValue w
  /\ accountDataCache (final r) = accountDataCache w.
Proof.
  intros r policy. subst r policy.
  destruct (updateHandler_run env data w) as [Hf [Hc He]].
  split; [exact He |]. split; [exact Hf |]. split.
  { rewrite Hc. symmetry. apply total_unit, handleAccountExpiry_total. }
  split; [exact Hc |].
  split; [apply handleAccountExpiry_policy_effects |].
  split; [apply updateHandler_stores |].
  rewrite Hf.
  rewrite handleAccountExpiry_keeps_history, handleAccountExpiry_keeps,
    handleAccountExpiry_keeps_cache.
  auto.
Qed.

(** X15. Whenever the policy arms the scheduler, the callback is the policy
    itself and the delay is at most twelve hours and at most the time left
    until the expiry (so it is negative for an expiry already past); the
    delay is NaN only when the stored expiry is not a date. *)
Theorem handleAccountExpiry_delay_bound env (w : Account C) action delay :
  In (SchedulerSchedule action delay) (effects (handleAccountExpiry C env w)) ->
  action = CallHandleAccountExpiry
  /\ exists data,
       accountData w = Some data
       /\ match delay with
          | Js.Num d =>
              d <= 12 * 60 * 60 * 1000
              /\ exists t, expiry data = Js.Num t /\ d <= t - Date_now env
          | Js.NaN => expiry data = Js.NaN
          end.
Proof.
  intros Hin.
  destruct (accountData w) as [data |] eqn:Hdata.
  - destruct (AccountExpired_mayDisplay C (expiry data) (getTunnelState env)
                (Date_now env)) eqn:Hexpired.
    + rewrite (handleAccountExpiry_run_expired env w data Hdata Hexpired) in Hin.
      cbn in Hin. destruct Hin as [H | [H | []]]; discriminate.
    + destruct (Scheduler_isRunning (accountExpiryNotificationScheduler w))
        eqn:Hrunning.
      * rewrite (handleAccountExpiry_run_armed env w data Hdata Hexpired Hrunning)
          in Hin.
        destruct Hin.
      * destruct (CloseToAccountExpiry_mayDisplay C (expiry data) (getLocale env)
                    (Date_now env)) eqn:Hsoon.
        -- rewrite (handleAccountExpiry_run_soon env w data Hdata Hexpired
                      Hrunning Hsoon) in Hin.
           cbn [effects] in Hin. destruct Hin as [H | [H | []]]; [discriminate |].
           injection H as <- <-. split; [reflexivity |].
           exists data. split; [reflexivity |].
           destruct (expiry data) as [t |]; cbn; [| reflexivity].
           split; [unfold twelveHours; lia |].
           exists t. split; [reflexivity |]. unfold twelveHours. lia.
        -- rewrite (handleAccountExpiry_run_quiet env w data Hdata Hexpired Hsoon)
             in Hin.
           destruct Hin.
  - rewrite (handleAccountExpiry_run_none env w Hdata) in Hin. destruct Hin.
Qed.

(** ** Device events, in full *)

(** X6. One device event does its work in this order: the post-upgrade
    check if one is pending, the call on the cache with whatever the cache's
    handlers do during it, the start of the history refresh, the tray menu,
    and last the IPC notification of the event if its notifier is installed;
    nothing else, and it never throws. *)
Theorem handleDeviceEvent_effect_order env deviceEvent (w : Account C) :
  let r := handleDeviceEvent C env deviceEvent w in
  let call :=
    match deviceState deviceEvent with
    | LoggedIn accountAndDevice => CacheFetch (accountToken accountAndDevice)
    | LoggedOut | Revoked => CacheInvalidate
    end in
  completion r = Normal tt
  /\ exists handled,
       forallb is_callback_effect handled = true
       /\ effects r =
            (if isPerformingPostUpgradeCheck env
             then [DelegatePerformPostUpgradeCheck] else [])
            ++ call :: handled
            ++ [DaemonRpc RpcGetAccountHistory; DelegateSetTrayContextMenu]
            ++ (if account_notifyDevice (ipc env)
                then [IpcAccountNotifyDevice deviceEvent] else []).
Proof.
  intros r call.
  destruct (handleDeviceEvent_run env deviceEvent w) as [Hc [_ Hrun]].
  split; [exact Hc | exact Hrun].
Qed.

(** X10. A device event never writes the stored account data itself, not
    even on 'logged out' or 'revoked': after the event the data is the last
    value the cache handed to the update handler during its fetch or
    invalidate, and the data stored before if it handed over none. *)
Theorem handleDeviceEvent_accountData env deviceEvent (w : Account C) :
  let r := handleDeviceEvent C env deviceEvent w in
  accountData (final r)
    = last_update
        (snd (device_event_method C (deviceState deviceEvent) (accountDataCache w)))
        (accountData w).
Proof.
  intros r. subst r.
  unfold handleDeviceEvent, accountDataCache_fetch, accountDataCache_invalidate,
    device_event_method, accountData.
  destruct (isPerformingPostUpgradeCheck env), (account_notifyDevice (ipc env));
  destruct (deviceState deviceEvent) as [accountAndDevice | |];
  unfold bind, modify, when, emit, updateAccountHistory, ret;
  cbn -[cache_call];
  match goal with
  | |- context [cache_call C env ?call ?method ?w'] =>
      pose proof (total_unit _ w' (cache_call_total env call method)) as Hc;
      pose proof (cache_call_accountData env call method w') as Hd;
      destruct (cache_call C env call method w') as [c f eff]
  end.
  all: cbn in *; subst; cbn; exact Hd.
Qed.

(** ** Commands and refreshes, outcome by outcome *)

(** X3. [createNewAccount]: when the daemon call succeeds the caller gets
    the new account token and the only effect is that call; when it fails
    the failure is logged as an error and the same error is thrown again.
    The state is never written. *)
Theorem createNewAccount_outcome between settled env (w : Account C) :
  let r := run_async (createNewAccount C) between settled env w in
  final r = between w
  /\ match settled with
     | Js.Resolved token =>
         completion r = Normal token
         /\ effects r = [DaemonRpc RpcCreateNewAccount]
     | Js.Rejected error =>
         completion r = Throw error
         /\ effects r =
              [DaemonRpc RpcCreateNewAccount;
               Log LogError ("Failed to create account: " ++ Js.message error)%string]
     end.
Proof.
  destruct settled as [token | error]; cbn; repeat split.
Qed.

(** X4. The history refresh never throws.  When the daemon call succeeds
    the account history is replaced by its result and the IPC channel is
    told (if the notifier is installed); when it fails the failure is logged
    as an error and swallowed, and the state, the history included, is as
    the refresh found it. *)
Theorem updateAccountHistory_outcome between settled env (w : Account C) :
  let r := run_async (updateAccountHistory C) between settled env w in
  completion r = Normal tt
  /\ match settled with
     | Js.Resolved history =>
         final r = set_accountHistoryValue history (between w)
         /\ accountHistory (final r) = history
         /\ effects r =
              DaemonRpc RpcGetAccountHistory
              :: (if accountHistory_notify (ipc env)
                  then [IpcAccountHistoryNotify history] else [])
     | Js.Rejected error =>
         final r = between w
         /\ effects r =
              [DaemonRpc RpcGetAccountHistory;
               Log LogError
                 ("Failed to fetch the account history: " ++ Js.message error)%string]
     end.
Proof.
  unfold run_async, updateAccountHistory, setAccountHistory, when, try_catch,
    bind, emit, ret, modify, await, log_, accountHistory.
  destruct settled as [history | error]; cbn.
  - destruct (accountHistory_notify (ipc env)); cbn; repeat split.
  - repeat split.
Qed.

(** X5. The voucher handler leaves the cache alone when the daemon rejects
    the voucher call, the error going to the caller as it is; and also when
    the device was not logged in at the time of the call, even if it has
    logged in by the time the daemon answers: the token is the one read
    before the await. *)
Theorem handleSubmitVoucher_without_cache_update voucherCode between env
    (w : Account C) :
  (forall error,
     let r := run_async (handleSubmitVoucher C voucherCode) between
                (Js.Rejected error) env w in
     completion r = Throw error
     /\ effects r = [DaemonRpc (RpcSubmitVoucher voucherCode)]
     /\ final r = between w)
  /\ (getAccountToken w = None ->
      forall response,
        let r := run_async (handleSubmitVoucher C voucherCode) between
                   (Js.Resolved response) env w in
        completion r = Normal response
        /\ effects r = [DaemonRpc (RpcSubmitVoucher voucherCode)]
        /\ final r = between w).
Proof.
  split.
  - intros error. cbn. repeat split.
  - intros Hnone response.
    unfold run_async, handleSubmitVoucher, bind, get, emit, ret, await.
    cbn [completion final effects]. rewrite Hnone. cbn. repeat split.
Qed.

(** ** Listeners *)

(** X12. Clearing the account history: when the daemon call succeeds the
    listener starts one history refresh, after the clear; when it fails the
    error goes to the caller and no refresh is started.  In both cases the
    stored history is not written by the listener itself. *)
Theorem handleClear_outcome between cleared (w : Account C) :
  let r := run_listener (handleClear C) between cleared w in
  listener_final r = between w
  /\ match cleared with
     | Js.Resolved _ =>
         listener_completion r = Normal tt
         /\ listener_effects r =
              [ListenerRpc RpcClearAccountHistory;
               AccountEffect (DaemonRpc RpcGetAccountHistory)]
     | Js.Rejected error =>
         listener_completion r = Throw error
         /\ listener_effects r = [ListenerRpc RpcClearAccountHistory]
     end.
Proof.
  destruct cleared as [[] | error]; cbn; repeat split.
Qed.

(** X11. Reading the device state: the listener asks the daemon to update
    the device, then asks for the device whether or not the update worked,
    and answers as that second call answers; a failed update is logged as a
    warning and never reaches the caller.  The state is not written. *)
Theorem handleGetDeviceState_outcome {D : Type} between1 between2
    (updated : Js.Settled unit) (device : Js.Settled D) (w : Account C) :
  let r := run_listener
             (run_listener (handleGetDeviceState C) between1 updated)
             between2 device w in
  listener_completion r =
    match device with
    | Js.Resolved d => Normal d
    | Js.Rejected error => Throw error
    end
  /\ listener_effects r =
       ListenerRpc RpcUpdateDevice
       :: match updated with
          | Js.Resolved _ => []
          | Js.Rejected error =>
              [AccountEffect
                 (Log LogWarn
                    ("Failed to update device info: " ++ Js.message error)%string)]
          end
       ++ [ListenerRpc RpcGetDevice]
  /\ listener_final r = between2 (between1 w).
Proof.
  destruct updated as [[] | error1], device as [d | error2]; cbn; repeat split.
Qed.

(** ** The stored account history *)




End Properties.

(** * Concrete runs *)

(** An expired account behind a tunnel in the error state, with a reminder
    armed: the reminder is cancelled and the expired notification is sent. *)
Lemma handleAccountExpiry_expired_witness :
  let env := sampleEnv "error" 100 in
  let data := mkAccountData (Js.Num 50) in
  let w := sampleAccount (Some data) armed (Some (sampleDevice "1234")) in
  let r := handleAccountExpiry sampleCollaborators env w in
  accountData w = Some data
  /\ AccountExpired_mayDisplay sampleCollaborators (expiry data)
       (getTunnelState env) (Date_now env) = true
  /\ effects r =
       [SchedulerCancel;
        DelegateNotify (AccountExpiredNotification (Js.Num 50) (mkTunnelState "error"))]
  /\ filter is_schedule (effects r) = []
  /\ Scheduler_isRunning (accountExpiryNotificationScheduler (final r)) = false
  /\ final r = set_scheduler (mkScheduler None) w
  /\ completion r = Normal tt.
Proof.
  split; [reflexivity |]. split; [reflexivity |].
  apply (handleAccountExpiry_expired (C:=sampleCollaborators)
           (sampleEnv "error" 100)
           (sampleAccount (Some (mkAccountData (Js.Num 50))) armed
              (Some (sampleDevice "1234")))
           (mkAccountData (Js.Num 50)));
    reflexivity.
Defined.

(** An expiry 90 minutes ahead and one 20 hours ahead with an idle
    scheduler, and an expiry 90 minutes ahead with an armed one. *)
Lemma handleAccountExpiry_closeToExpiry_witness :
  let env := sampleEnv "connected" 1000 in
  let soon := mkAccountData (Js.Num (1000 + minutes 90)) in
  let later := mkAccountData (Js.Num (1000 + hours 20)) in
  let device := Some (sampleDevice "1234") in
  (effects (handleAccountExpiry sampleCollaborators env
              (sampleAccount (Some soon) Scheduler_new device)) =
     [DelegateNotify (CloseToAccountExpiryNotification (Js.Num 5401000) "en");
      SchedulerSchedule CallHandleAccountExpiry (Js.Num 5400000)])
  /\ (effects (handleAccountExpiry sampleCollaborators env
                 (sampleAccount (Some later) Scheduler_new device)) =
        [DelegateNotify (CloseToAccountExpiryNotification (Js.Num 72001000) "en");
         SchedulerSchedule CallHandleAccountExpiry (Js.Num 43200000)])
  /\ (effects (handleAccountExpiry sampleCollaborators env
                 (sampleAccount (Some soon) armed device)) = []).
Proof.
  split; [| split].
  - destruct (handleAccountExpiry_closeToExpiry (C:=sampleCollaborators)
                (sampleEnv "connected" 1000)
                (sampleAccount (Some (mkAccountData (Js.Num (1000 + minutes 90))))
                   Scheduler_new (Some (sampleDevice "1234")))
                (mkAccountData (Js.Num (1000 + minutes 90)))
                eq_refl eq_refl) as [Hidle _].
    destruct (Hidle eq_refl eq_refl) as [Heffects _]. exact Heffects.
  - destruct (handleAccountExpiry_closeToExpiry (C:=sampleCollaborators)
                (sampleEnv "connected" 1000)
                (sampleAccount (Some (mkAccountData (Js.Num (1000 + hours 20))))
                   Scheduler_new (Some (sampleDevice "1234")))
                (mkAccountData (Js.Num (1000 + hours 20)))
                eq_refl eq_refl) as [Hidle _].
    destruct (Hidle eq_refl eq_refl) as [Heffects _]. exact Heffects.
  - destruct (handleAccountExpiry_closeToExpiry (C:=sampleCollaborators)
                (sampleEnv "connected" 1000)
                (sampleAccount (Some (mkAccountData (Js.Num (1000 + minutes 90))))
                   armed (Some (sampleDevice "1234")))
                (mkAccountData (Js.Num (1000 + minutes 90)))
                eq_refl eq_refl) as [_ Harmed].
    destruct (Harmed eq_refl) as [Heffects _]. exact Heffects.
Defined.

(** A connected tunnel with an expired account invalidates; a disconnected
    tunnel with the same account does nothing. *)
Lemma detectStaleAccountExpiry_invalidates_witness :
  let env := sampleEnv "connected" 100 in
  let w := sampleAccount (Some (mkAccountData (Js.Num 50))) Scheduler_new
             (Some (sampleDevice "1234")) in
  In CacheInvalidate
     (effects (detectStaleAccountExpiry sampleCollaborators env
                 (mkTunnelState "connected") w))
  /\ effects (detectStaleAccountExpiry sampleCollaborators env
                (mkTunnelState "disconnected") w) = [].
Proof.
  split.
  - apply (detectStaleAccountExpiry_invalidates (C:=sampleCollaborators)
             (sampleEnv "connected" 100) (mkTunnelState "connected")
             (sampleAccount (Some (mkAccountData (Js.Num 50))) Scheduler_new
                (Some (sampleDevice "1234")))).
    split; [reflexivity |]. right.
    exists (mkAccountData (Js.Num 50)), 50.
    split; [reflexivity |]. split; [reflexivity |]. cbn. lia.
  - apply (detectStaleAccountExpiry_invalidates (C:=sampleCollaborators)
             (sampleEnv "connected" 100) (mkTunnelState "disconnected")
             (sampleAccount (Some (mkAccountData (Js.Num 50))) Scheduler_new
                (Some (sampleDevice "1234")))).
    cbn. discriminate.
Defined.

(** C6, as stated, fails: with a reminder armed and the daemon call
    rejected, [logout] logs and rethrows without a cancel, and the reminder
    is still armed afterwards. *)
Lemma logout_rejected_keeps_schedule :
  let error := Js.mkError false "daemon unreachable" in
  let w := sampleAccount (Some (mkAccountData (Js.Num 5000))) armed
             (Some (sampleDevice "1234")) in
  let r := run_async (logout sampleCollaborators) (fun w' => w')
             (Js.Rejected error) (sampleEnv "connected" 100) w in
  Scheduler_isRunning (accountExpiryNotificationScheduler w) = true
  /\ Scheduler_isRunning (accountExpiryNotificationScheduler (final r)) = true
  /\ ~ In SchedulerCancel (effects r)
  /\ effects r =
       [DaemonRpc RpcLogoutAccount; Log LogInfo "Failed to logout: daemon unreachable"]
  /\ completion r = Throw error.
Proof.
  cbn. repeat split.
  intros [H | [H | []]]; discriminate.
Defined.

(** A voucher accepted while logged in with account 1234: the cache is told
    once, with that account, and hands the new expiry to the update
    handler. *)
Lemma handleSubmitVoucher_updates_cache_witness :
  let response := mkVoucherResponse "success" (Some (Js.Num 900000000)) in
  let w := sampleAccount (Some (mkAccountData (Js.Num 5000))) Scheduler_new
             (Some (sampleDevice "1234")) in
  let r := run_async (handleSubmitVoucher sampleCollaborators "voucher-code")
             (fun w' => w') (Js.Resolved response) (sampleEnv "connected" 100) w in
  deviceState_ w = Some (sampleDevice "1234")
  /\ completion r = Normal response
  /\ filter is_cache_call (effects r) = [CacheHandleVoucherResponse "1234" response]
  /\ filter is_cache_fetch (effects r) = [].
Proof.
  split; [reflexivity |].
  destruct (handleSubmitVoucher_updates_cache (C:=sampleCollaborators)
              "voucher-code" (mkAccountAndDevice "1234" "device-1") (fun w' => w')
              (mkVoucherResponse "success" (Some (Js.Num 900000000)))
              (sampleEnv "connected" 100)
              (sampleAccount (Some (mkAccountData (Js.Num 5000))) Scheduler_new
                 (Some (sampleDevice "1234")))
              eq_refl ltac:(discriminate))
    as [Hcompletion [Hcalls [Hfetch _]]].
  split; [exact Hcompletion |]. split; [exact Hcalls | exact Hfetch].
Defined.

(** Data gone while a reminder is armed: the policy does nothing and the
    reminder stays armed. *)
Lemma handleAccountExpiry_no_data_witness :
  let env := sampleEnv "connected" 100 in
  let w := sampleAccount None armed None in
  let r := handleAccountExpiry sampleCollaborators env w in
  accountData w = None
  /\ effects r = [] /\ final r = w /\ completion r = Normal tt
  /\ accountExpiryNotificationScheduler (final r) = armed.
Proof.
  split; [reflexivity |].
  destruct (handleAccountExpiry_no_data (C:=sampleCollaborators)
              (sampleEnv "connected" 100) (sampleAccount None armed None) eq_refl)
    as [[Heffects [Hfinal Hcompletion]] _].
  split; [exact Heffects |]. split; [exact Hfinal |]. split; [exact Hcompletion |].
  rewrite Hfinal. reflexivity.
Defined.

(** A logged-in state has a token; a revoked one has none. *)
Lemma isLoggedIn_iff_token_witness :
  isLoggedIn (sampleAccount None Scheduler_new (Some (sampleDevice "1234"))) = true
  /\ getAccountToken (sampleAccount None Scheduler_new (Some Revoked)) = None.
Proof.
  split.
  - apply (isLoggedIn_iff_token (C:=sampleCollaborators)
             (sampleAccount None Scheduler_new (Some (sampleDevice "1234")))).
    exists (mkAccountAndDevice "1234" "device-1"). split; reflexivity.
  - apply (isLoggedIn_iff_token (C:=sampleCollaborators)
             (sampleAccount None Scheduler_new (Some Revoked))).
    reflexivity.
Defined.

(** A reminder armed by the first run is not repeated by the second. *)
Lemma handleAccountExpiry_no_repeat_witness :
  let env := sampleEnv "connected" 1000 in
  let w := sampleAccount (Some (mkAccountData (Js.Num (1000 + minutes 90))))
             Scheduler_new (Some (sampleDevice "1234")) in
  let first := handleAccountExpiry sampleCollaborators env w in
  let second := handleAccountExpiry sampleCollaborators env (final first) in
  length (effects first) = 2%nat
  /\ effects second = []
  /\ final second = final first
  /\ completion second = Normal tt.
Proof.
  split; [reflexivity |].
  apply (handleAccountExpiry_no_repeat (C:=sampleCollaborators)
           (sampleEnv "connected" 1000)
           (sampleAccount (Some (mkAccountData (Js.Num (1000 + minutes 90))))
              Scheduler_new (Some (sampleDevice "1234")))).
  intros data Hdata. injection Hdata as <-. reflexivity.
Defined.

(** A voucher sent while logged out and answered after the device has
    logged in: the cache is not told. *)
Lemma handleSubmitVoucher_without_cache_update_witness :
  let response := mkVoucherResponse "success" (Some (Js.Num 900000000)) in
  let w := sampleAccount None Scheduler_new (Some LoggedOut) in
  let login_meanwhile := set_deviceStateValue (Some (sampleDevice "1234")) in
  let r := run_async (handleSubmitVoucher sampleCollaborators "voucher-code")
             login_meanwhile (Js.Resolved response) (sampleEnv "connected" 100) w in
  getAccountToken w = None
  /\ isLoggedIn (final r) = true
  /\ completion r = Normal response
  /\ effects r = [DaemonRpc (RpcSubmitVoucher "voucher-code")].
Proof.
  split; [reflexivity |]. split; [reflexivity |].
  destruct (handleSubmitVoucher_without_cache_update (C:=sampleCollaborators)
              "voucher-code"
              (set_deviceStateValue (Some (sampleDevice "1234")))
              (sampleEnv "connected" 100)
              (sampleAccount None Scheduler_new (Some LoggedOut)))
    as [_ Hlogged_out].
  destruct (Hlogged_out eq_refl
              (mkVoucherResponse "success" (Some (Js.Num 900000000))))
    as [Hcompletion [Heffects _]].
  split; [exact Hcompletion | exact Heffects].
Defined.

(** An expiry 20 hours ahead: the reminder is armed for 12 hours. *)
Lemma handleAccountExpiry_delay_bound_witness :
  let env := sampleEnv "connected" 1000 in
  let data := mkAccountData (Js.Num (1000 + hours 20)) in
  let w := sampleAccount (Some data) Scheduler_new (Some (sampleDevice "1234")) in
  In (SchedulerSchedule CallHandleAccountExpiry (Js.Num (hours 12)))
     (effects (handleAccountExpiry sampleCollaborators env w))
  /\ exists stored,
       accountData w = Some stored
       /\ hours 12 <= 12 * 60 * 60 * 1000
       /\ exists t, expiry stored = Js.Num t /\ hours 12 <= t - Date_now env.
Proof.
  assert (Hin : In (SchedulerSchedule CallHandleAccountExpiry (Js.Num (hours 12)))
                   (effects (handleAccountExpiry sampleCollaborators
                      (sampleEnv "connected" 1000)
                      (sampleAccount (Some (mkAccountData (Js.Num (1000 + hours 20))))
                         Scheduler_new (Some (sampleDevice "1234"))))))
    by (right; left; reflexivity).
  split; [exact Hin |].
  destruct (handleAccountExpiry_delay_bound (C:=sampleCollaborators) _ _ _ _ Hin)
    as [_ Hbound].
  exact Hbound.
Defined.
